(** * Slurm / Singularity execution driver of yorc

    Shallow embedding of [prov/slurm/execution_singularity.go]: operation
    dispatch ([executeAsync]), container information ([buildSingularityInfo],
    [resolveContainerImage], [buildImageURI]) and the two submission modes
    ([runBatchMode], [runInteractiveMode]).

    Go strings are byte sequences and are modelled by [string] (a list of
    [ascii] bytes).  The functions of Go's [strings] and [path] packages that
    the driver calls are embedded first, following their Go implementation.

    The calls to [log.Debugf], [log.Printf] and to the deployment event log
    ([events...RegisterAsString]) only write to logging sinks: they neither
    change the execution object nor influence control flow, and are left out
    of the model. *)

From Stdlib Require Import String Ascii List Bool Arith Lia ZArith.
Import ListNotations.
Open Scope list_scope.
Open Scope string_scope.
Open Scope nat_scope.

Set Implicit Arguments.

(** ** Go's [strings] package *)

Module strings.

(** [s[n:]] *)
Fixpoint sliceFrom (n : nat) (s : string) : string :=
  match n, s with
  | 0, _ => s
  | S _, EmptyString => EmptyString
  | S k, String _ s' => sliceFrom k s'
  end.

(** [s[:n]] *)
Fixpoint sliceTo (n : nat) (s : string) : string :=
  match n, s with
  | 0, _ => EmptyString
  | S _, EmptyString => EmptyString
  | S k, String c s' => String c (sliceTo k s')
  end.

Definition HasPrefix (s pre : string) : bool := String.prefix pre s.

Definition HasSuffix (s suffix : string) : bool :=
  (String.length suffix <=? String.length s) &&
  String.eqb (sliceFrom (String.length s - String.length suffix) s) suffix.

(** [strings.Index]: position of the first instance of [substr] in [s]. *)
Fixpoint Index (s substr : string) : option nat :=
  if String.prefix substr s then Some 0
  else match s with
       | EmptyString => None
       | String _ s' => option_map S (Index s' substr)
       end.

(** [strings.Count] for a non-empty [substr]: the loop
    [i := Index(s, substr); if i == -1 return n; n++; s = s[i+len(substr):]].
    Each round consumes at least one byte, so [length s] rounds suffice. *)
Fixpoint countLoop (fuel : nat) (s substr : string) : nat :=
  match fuel with
  | 0 => 0
  | S fuel' =>
      match Index s substr with
      | None => 0
      | Some i => S (countLoop fuel' (sliceFrom (i + String.length substr) s) substr)
      end
  end.

Definition Count (s substr : string) : nat :=
  match substr with
  | EmptyString => S (String.length s)
  | _ => countLoop (String.length s) s substr
  end.

(** [strings.genSplit(s, sep, 0, n)]: the loop runs [n-1] times
    ([a[i] = s[:m]; s = s[m+len(sep):]]) and the rest goes to the last slot. *)
Fixpoint genSplit (rounds : nat) (s sep : string) : list string :=
  match rounds with
  | 0 => [s]
  | S rounds' =>
      match Index s sep with
      | None => [s]
      | Some m => sliceTo m s :: genSplit rounds' (sliceFrom (m + String.length sep) s) sep
      end
  end.

(** [explode] on single-byte characters. *)
Fixpoint explode (s : string) : list string :=
  match s with
  | EmptyString => []
  | String c s' => String c EmptyString :: explode s'
  end.

(** [strings.Split(s, sep)]: [genSplit(s, sep, 0, -1)], where a negative
    count is replaced by [Count(s, sep) + 1]. *)
Definition Split (s sep : string) : list string :=
  match sep with
  | EmptyString => explode s
  | _ => genSplit (Count s sep) s sep
  end.

(** [strings.Join(elems, sep)] *)
Definition Join (elems : list string) (sep : string) : string :=
  String.concat sep elems.

Fixpoint inCutset (c : ascii) (cutset : string) : bool :=
  match cutset with
  | EmptyString => false
  | String d cutset' => Ascii.eqb c d || inCutset c cutset'
  end.

Fixpoint trimLeft (s cutset : string) : string :=
  match s with
  | EmptyString => EmptyString
  | String c s' => if inCutset c cutset then trimLeft s' cutset else s
  end.

Fixpoint trimRight (s cutset : string) : string :=
  match s with
  | EmptyString => EmptyString
  | String c s' =>
      match trimRight s' cutset with
      | EmptyString => if inCutset c cutset then EmptyString else String c EmptyString
      | r => String c r
      end
  end.

(** [strings.Trim(s, cutset)] for a cutset of single-byte characters:
    [if s == "" || cutset == "" { return s }], then both ends are stripped
    of the bytes of [cutset]. *)
Definition Trim (s cutset : string) : string :=
  match s, cutset with
  | EmptyString, _ => s
  | _, EmptyString => s
  | _, _ => trimLeft (trimRight s cutset) cutset
  end.

(** The six single-byte characters that [unicode.IsSpace] accepts:
    tab, line feed, vertical tab, form feed, carriage return, space. *)
Definition asciiSpace : string :=
  String (ascii_of_nat 9) (String (ascii_of_nat 10) (String (ascii_of_nat 11)
  (String (ascii_of_nat 12) (String (ascii_of_nat 13) (String (ascii_of_nat 32)
  EmptyString))))).

Definition TrimSpace (s : string) : string := Trim s asciiSpace.

(** [strings.ToLower]: strings made of bytes below [utf8.RuneSelf] take the
    byte-wise path ([c += 'a' - 'A'] for ['A' <= c <= 'Z']); the others go
    through [strings.Map(unicode.ToLower, s)], which depends on the Unicode
    tables and is received as [unicodeLower]. *)
Definition isUpper (c : ascii) : bool :=
  (65 <=? nat_of_ascii c) && (nat_of_ascii c <=? 90).

Definition lowerByte (c : ascii) : ascii :=
  if isUpper c then ascii_of_nat (nat_of_ascii c + 32) else c.

Fixpoint isASCII (s : string) : bool :=
  match s with
  | EmptyString => true
  | String c s' => (nat_of_ascii c <? 128) && isASCII s'
  end.

Fixpoint mapBytes (f : ascii -> ascii) (s : string) : string :=
  match s with
  | EmptyString => EmptyString
  | String c s' => String (f c) (mapBytes f s')
  end.

Definition ToLower (unicodeLower : string -> string) (s : string) : string :=
  if isASCII s then mapBytes lowerByte s else unicodeLower s.

(** [strings.Fields] on single-byte white space: the maximal runs of
    non-space bytes. *)
Fixpoint fieldsLoop (s : string) (cur : string) : list string :=
  match s with
  | EmptyString => match cur with EmptyString => [] | _ => [cur] end
  | String c s' =>
      if inCutset c asciiSpace
      then match cur with
           | EmptyString => fieldsLoop s' EmptyString
           | _ => cur :: fieldsLoop s' EmptyString
           end
      else fieldsLoop s' (cur ++ String c EmptyString)
  end.

Definition Fields (s : string) : list string := fieldsLoop s EmptyString.

End strings.

(** ** Go's [path] package *)

Module path.

Definition slash : ascii := ascii_of_nat 47.
Definition dot : ascii := ascii_of_nat 46.

(** The output buffer of [Clean] ([lazybuf]) is kept as the list of the bytes
    written so far, last byte first; [out.w] is its length. *)
Definition buf := list ascii.

(** [out.w--; for out.w > dotdot && out.index(out.w) != '/' { out.w-- }]:
    [last] is the byte at index [out.w]. *)
Fixpoint backtrack (last : ascii) (out : buf) (dotdot : nat) : buf :=
  match out with
  | [] => []
  | c :: out' =>
      if (dotdot <? List.length out) && negb (Ascii.eqb last slash)
      then backtrack c out' dotdot
      else out
  end.

(** [for ; r < n && path[r] != '/'; r++ { out.append(path[r]) }] *)
Fixpoint copyElement (p : string) (out : buf) : string * buf :=
  match p with
  | EmptyString => (p, out)
  | String c p' => if Ascii.eqb c slash then (p, out) else copyElement p' (c :: out)
  end.

(** The main loop of [Clean]; [p] is [path[r:]].  Every round consumes at
    least one byte of [p]. *)
Fixpoint cleanLoop (fuel : nat) (rooted : bool) (p : string) (out : buf)
    (dotdot : nat) : buf :=
  match fuel with
  | 0 => out
  | S fuel' =>
      match p with
      | EmptyString => out
      | String c0 p1 =>
          if Ascii.eqb c0 slash then
            (* empty path element *)
            cleanLoop fuel' rooted p1 out dotdot
          else if Ascii.eqb c0 dot &&
                  match p1 with
                  | EmptyString => true
                  | String c1 _ => Ascii.eqb c1 slash
                  end then
            (* . element *)
            cleanLoop fuel' rooted p1 out dotdot
          else if Ascii.eqb c0 dot &&
                  match p1 with
                  | String c1 EmptyString => Ascii.eqb c1 dot
                  | String c1 (String c2 _) => Ascii.eqb c1 dot && Ascii.eqb c2 slash
                  | EmptyString => false
                  end then
            (* .. element: remove to last / *)
            let p2 := strings.sliceFrom 1 p1 in
            if dotdot <? List.length out then
              match out with
              | [] => cleanLoop fuel' rooted p2 out dotdot
              | c :: out' => cleanLoop fuel' rooted p2 (backtrack c out' dotdot) dotdot
              end
            else if negb rooted then
              let out1 := if 0 <? List.length out then slash :: out else out in
              let out2 := dot :: dot :: out1 in
              cleanLoop fuel' rooted p2 out2 (List.length out2)
            else cleanLoop fuel' rooted p2 out dotdot
          else
            (* real path element: add slash if needed, copy element *)
            let out1 :=
              if (rooted && negb (List.length out =? 1)) ||
                 (negb rooted && negb (List.length out =? 0))
              then slash :: out else out in
            let '(p', out2) := copyElement p out1 in
            cleanLoop fuel' rooted p' out2 dotdot
      end
  end.

(** [path.Clean] *)
Definition Clean (p : string) : string :=
  match p with
  | EmptyString => "."
  | String c0 p1 =>
      let rooted := Ascii.eqb c0 slash in
      let out :=
        if rooted then cleanLoop (String.length p1) true p1 [slash] 1
        else cleanLoop (String.length p) false p [] 0 in
      match out with
      | [] => "."
      | _ => string_of_list_ascii (List.rev out)
      end
  end.

(** The loop of [path.Join]: every non-empty element is appended, a slash
    being put before it when the buffer is not empty. *)
Fixpoint joinLoop (elem : list string) (b : string) : string :=
  match elem with
  | [] => b
  | e :: elem' =>
      match b, e with
      | EmptyString, EmptyString => joinLoop elem' b
      | EmptyString, _ => joinLoop elem' e
      | _, _ => joinLoop elem' (b ++ String slash e)
      end
  end.

(** [path.Join] *)
Definition Join (elem : list string) : string :=
  match joinLoop elem EmptyString with
  | EmptyString => EmptyString
  | b => Clean b
  end.

End path.

(** ** Data model *)

(** Go [error] values.  [errors.Errorf] is only called with one [%q] verb; the
    format and its argument are kept apart instead of being rendered. *)
Inductive error : Type :=
| errors_New (message : string)
| errors_Errorf (format : string) (arg : string)
| errors_Wrap (cause : error) (message : string).

(** [prov.Operation], the fields the driver reads. *)
Record Operation : Type := {
  Name : string;
  ImplementedInNodeTemplate : string
}.

(** An element of [e.EnvInputs]. *)
Record EnvInput : Type := {
  input_Name : string;
  input_Value : string
}.

(** [jobInfo].  [inputs] is a Go map; it is only ever ranged over, and is
    kept as the list of its entries in the order in which the range
    statement visits them. *)
Record jobInfo : Type := {
  ID : string;
  batchMode : bool;
  monitoringTimeInterval : Z;
  inputs : list (string * string);
  outputs : list string;
  execArgs : list string;
  opts : list string
}.

Record singularityInfo : Type := {
  imageName : string;
  imageURI : string;
  exec : string;
  command : string
}.

(** [executionCommon], the fields the driver reads or writes. *)
Record executionCommon : Type := {
  deploymentID : string;
  NodeType : string;
  operation : Operation;
  EnvInputs : list EnvInput;
  Primary : string;
  OperationRemoteBaseDir : string;
  OperationRemoteExecDir : string;
  e_jobInfo : jobInfo
}.

(** [executionSingularity]: the embedded [*executionCommon] and the
    [*singularityInfo] pointer, [None] while it is nil. *)
Record executionSingularity : Type := {
  common : executionCommon;
  e_singularityInfo : option singularityInfo
}.

(** [url.URL], the fields of interest. *)
Record URL : Type := {
  Scheme : string;
  Host : string;
  Path : string
}.

(** What the driver asks of the outside world. *)
Inductive event : Type :=
| RunCommand (cmd : string)
| GetOperationImplementationRepository
    (deployment nodeTemplate nodeType operationName : string)
| GetRepositoryURLFromName (deployment repoName : string).

(** The collaborators of the driver: the remote transport [e.client], the
    deployment store behind [e.kv], library functions depending on tables or
    on the clock, and the methods of [executionCommon] and helpers of the
    package that this file calls but does not define.  [buildJobInfo] and
    [retrieveJobID] are methods of the embedded [executionCommon]: they are
    given that object and return it updated, with their error.  The two
    constants are those of the [deployments] package. *)
Record collaborators : Type := {
  Action : Type;
  unicodeLower : string -> string;
  DockerHubURL : string;
  SingularityHubURL : string;
  operationImplementationRepository :
    string -> string -> string -> string -> string * option error;
  repositoryURLFromName : string -> string -> string * option error;
  url_Parse : string -> URL * option error;
  client_RunCommand : string -> string * option error;
  UniqueTimestampedName : string -> string -> string;
  buildJobInfo : executionCommon -> executionCommon * option error;
  fillJobCommandOpts : executionCommon -> string;
  parseOutputConfigFromOpts : list string -> list string;
  parseJobIDFromBatchOutput : string -> string * option error;
  retrieveJobID : executionCommon -> executionCommon * option error;
  buildJobMonitoringAction : executionCommon -> Action
}.

(** ** The monad of the driver's methods

    A method runs on the execution object [e] and on the trace of the
    requests that the methods of this file have sent so far (what a
    collaborator does on its own is not recorded); it returns a value, a Go
    error, or panics. *)

Record world : Type := {
  this : executionSingularity;
  trace : list event
}.

Inductive outcome (A : Type) : Type :=
| Ret (a : A)
| Fail (err : error)
| Panic (reason : string).

Arguments Ret {A} a.
Arguments Fail {A} err.
Arguments Panic {A} reason.

Definition M (A : Type) : Type := world -> outcome A * world.

Definition ret {A : Type} (a : A) : M A := fun w => (Ret a, w).

Definition fail {A : Type} (err : error) : M A := fun w => (Fail err, w).

Definition panic {A : Type} (reason : string) : M A := fun w => (Panic reason, w).

Definition bind {A B : Type} (m : M A) (k : A -> M B) : M B :=
  fun w =>
    match m w with
    | (Ret a, w') => k a w'
    | (Fail err, w') => (Fail err, w')
    | (Panic reason, w') => (Panic reason, w')
    end.

Notation "x <- m ;; k" := (bind m (fun x => k))
  (at level 61, m at next level, right associativity).
Notation "m ;;; k" := (bind m (fun _ => k))
  (at level 61, right associativity).

Definition getThis : M executionSingularity := fun w => (Ret (this w), w).

Definition setThis (e : executionSingularity) : M unit :=
  fun w => (Ret tt, {| this := e; trace := trace w |}).

Definition emit (ev : event) : M unit :=
  fun w => (Ret tt, {| this := this w; trace := trace w ++ [ev] |}).

(** [if err := m; err != nil { return errors.Wrap(err, message) }] *)
Definition wrapped {A : Type} (m : M A) (message : string) : M A :=
  fun w =>
    match m w with
    | (Fail err, w') => (Fail (errors_Wrap err message), w')
    | r => r
    end.

(** A Go call returning [(value, error)]. *)
Definition orFail {A : Type} (r : A * option error) : M A :=
  match r with
  | (a, None) => ret a
  | (_, Some err) => fail err
  end.

(** Field updates. *)
Definition set_jobInfo (c : executionCommon) (j : jobInfo) : executionCommon :=
  {| deploymentID := deploymentID c; NodeType := NodeType c;
     operation := operation c; EnvInputs := EnvInputs c; Primary := Primary c;
     OperationRemoteBaseDir := OperationRemoteBaseDir c;
     OperationRemoteExecDir := OperationRemoteExecDir c;
     e_jobInfo := j |}.

Definition set_OperationRemoteExecDir (c : executionCommon) (d : string)
  : executionCommon :=
  {| deploymentID := deploymentID c; NodeType := NodeType c;
     operation := operation c; EnvInputs := EnvInputs c; Primary := Primary c;
     OperationRemoteBaseDir := OperationRemoteBaseDir c;
     OperationRemoteExecDir := d;
     e_jobInfo := e_jobInfo c |}.

Definition set_outputs (j : jobInfo) (o : list string) : jobInfo :=
  {| ID := ID j; batchMode := batchMode j;
     monitoringTimeInterval := monitoringTimeInterval j; inputs := inputs j;
     outputs := o; execArgs := execArgs j; opts := opts j |}.

Definition set_ID (j : jobInfo) (id : string) : jobInfo :=
  {| ID := id; batchMode := batchMode j;
     monitoringTimeInterval := monitoringTimeInterval j; inputs := inputs j;
     outputs := outputs j; execArgs := execArgs j; opts := opts j |}.

Definition set_execArgs (j : jobInfo) (a : list string) : jobInfo :=
  {| ID := ID j; batchMode := batchMode j;
     monitoringTimeInterval := monitoringTimeInterval j; inputs := inputs j;
     outputs := outputs j; execArgs := a; opts := opts j |}.

Definition set_imageURI (s : singularityInfo) (uri : string) : singularityInfo :=
  {| imageName := imageName s; imageURI := uri; exec := exec s;
     command := command s |}.

Definition set_common (e : executionSingularity) (c : executionCommon)
  : executionSingularity :=
  {| common := c; e_singularityInfo := e_singularityInfo e |}.

Definition set_singularityInfo (e : executionSingularity)
    (s : option singularityInfo) : executionSingularity :=
  {| common := common e; e_singularityInfo := s |}.

(** Reading through the [e.singularityInfo] pointer. *)
Definition derefSingularityInfo : M singularityInfo :=
  e <- getThis ;;
  match e_singularityInfo e with
  | Some s => ret s
  | None => panic "invalid memory address or nil pointer dereference"
  end.

(** [e.singularityInfo.imageURI = uri] *)
Definition assignImageURI (uri : string) : M unit :=
  s <- derefSingularityInfo ;;
  e <- getThis ;;
  setThis (set_singularityInfo e (Some (set_imageURI s uri))).

(** A method of the embedded [executionCommon] returning an [error]. *)
Definition onCommon (f : executionCommon -> executionCommon * option error)
  : M unit :=
  e <- getThis ;;
  let '(c, r) := f (common e) in
  setThis (set_common e c) ;;;
  match r with
  | None => ret tt
  | Some err => fail err
  end.

(** The loop [for k, v := range e.jobInfo.inputs] with body
    [exports += fmt.Sprintf("export %s=%s;", k, v)]. *)
Definition exportEntry (kv : string * string) : string :=
  "export " ++ fst kv ++ "=" ++ snd kv ++ ";".

Definition rangeExports (ins : list (string * string)) : string :=
  fold_left (fun exports kv => exports ++ exportEntry kv) ins EmptyString.

Definition dquote : string := String (ascii_of_nat 34) EmptyString.
Definition newline : string := String (ascii_of_nat 10) EmptyString.

Definition runnableRun : string := "tosca.interfaces.node.lifecycle.runnable.run".

Definition missingImageName : error :=
  errors_New "The image name is mandatory and must be filled in the operation artifact implementation".

(** ** The methods of [executionSingularity] *)

Section Driver.

Variable env : collaborators.

Definition buildImageURI (pre : string) : M unit :=
  e <- getThis ;;
  let c := common e in
  emit (GetOperationImplementationRepository (deploymentID c)
          (ImplementedInNodeTemplate (operation c)) (NodeType c)
          (Name (operation c))) ;;;
  repoName <- orFail (operationImplementationRepository env (deploymentID c)
                        (ImplementedInNodeTemplate (operation c)) (NodeType c)
                        (Name (operation c))) ;;
  if String.eqb repoName "" then
    s <- derefSingularityInfo ;; assignImageURI (imageName s)
  else
    emit (GetRepositoryURLFromName (deploymentID c) repoName) ;;;
    repoURL <- orFail (repositoryURLFromName env (deploymentID c) repoName) ;;
    (* Just ignore default public Docker and Singularity registries *)
    if String.eqb repoURL (DockerHubURL env) ||
       String.eqb repoURL (SingularityHubURL env) then
      s <- derefSingularityInfo ;; assignImageURI (imageName s)
    else if negb (String.eqb repoURL "") then
      urlStruct <- orFail (url_Parse env repoURL) ;;
      s <- derefSingularityInfo ;;
      let tabs := strings.Split (imageName s) pre in
      match nth_error tabs 1 with
      | None => panic "index out of range"
      | Some tab1 => assignImageURI (pre ++ path.Join [Host urlStruct; tab1])
      end
    else
      s <- derefSingularityInfo ;; assignImageURI (imageName s).

Definition unresolvable (name : string) : error :=
  errors_Errorf "Unable to resolve container image URI from image name:%q" name.

Definition resolveContainerImage : M unit :=
  s <- derefSingularityInfo ;;
  if strings.HasPrefix (imageName s) "docker://" then
    (* Docker image *)
    buildImageURI "docker://"
  else if strings.HasPrefix (imageName s) "shub://" then
    (* Singularity image *)
    buildImageURI "shub://"
  else if strings.HasSuffix (imageName s) ".simg" ||
          strings.HasSuffix (imageName s) ".img" then
    (* File image *)
    assignImageURI (imageName s)
  else
    fail (unresolvable (imageName s)).

Definition set_exec_command (s : singularityInfo) (e c : string) : singularityInfo :=
  {| imageName := imageName s; imageURI := imageURI s; exec := e; command := c |}.

Definition set_imageName (s : singularityInfo) (n : string) : singularityInfo :=
  {| imageName := n; imageURI := imageURI s; exec := exec s; command := command s |}.

Definition set_command (s : singularityInfo) (c : string) : singularityInfo :=
  {| imageName := imageName s; imageURI := imageURI s; exec := exec s; command := c |}.

(** The zero value [singularityInfo{}]. *)
Definition zeroSingularityInfo : singularityInfo :=
  {| imageName := ""; imageURI := ""; exec := ""; command := "" |}.

(** The body of [for _, input := range e.EnvInputs]. *)
Definition scanInput (s : singularityInfo) (input : EnvInput) : singularityInfo :=
  if String.eqb (input_Name input) "exec_command" &&
     negb (String.eqb (input_Value input) "")
  then set_exec_command s (input_Value input) "exec"
  else s.

Definition buildSingularityInfo : M unit :=
  e <- getThis ;;
  let s := fold_left scanInput (EnvInputs (common e)) zeroSingularityInfo in
  let s := set_imageName s (Primary (common e)) in
  if String.eqb (imageName s) "" then
    fail missingImageName
  else
    (* Default singularity command is "run" *)
    let s := if String.eqb (command s) "" then set_command s "run" else s in
    setThis (set_singularityInfo e (Some s)) ;;;
    resolveContainerImage.

(** [fmt.Sprintf("%ssrun %s singularity %s %s %s", ...)] wrapped by
    [fmt.Sprintf("mkdir -p %s;cd %s;sbatch --wrap=\"%s\"", ...)]. *)
Definition batchInnerCmd (exports opts : string) (s : singularityInfo) : string :=
  exports ++ "srun " ++ opts ++ " singularity " ++ command s ++ " " ++
  imageURI s ++ " " ++ exec s.

Definition batchCmd (dir innerCmd : string) : string :=
  "mkdir -p " ++ dir ++ ";cd " ++ dir ++ ";sbatch --wrap=" ++ dquote ++
  innerCmd ++ dquote.

Definition assignJobID (id : string) : M unit :=
  e <- getThis ;;
  setThis (set_common e (set_jobInfo (common e) (set_ID (e_jobInfo (common e)) id))).

Definition runBatchMode (opts : string) : M unit :=
  e <- getThis ;;
  (* Exec args are passed via env var to sbatch script *)
  let exports := rangeExports (inputs (e_jobInfo (common e))) in
  s <- derefSingularityInfo ;;
  let innerCmd := batchInnerCmd exports opts s in
  let cmd := batchCmd (OperationRemoteBaseDir (common e)) innerCmd in
  emit (RunCommand cmd) ;;;
  match client_RunCommand env cmd with
  | (output, Some err) => fail (errors_Wrap err output)
  | (output, None) =>
      let output := strings.Trim output newline in
      let '(id, err) := parseJobIDFromBatchOutput env output in
      assignJobID id ;;;
      match err with
      | Some err => fail err
      | None => ret tt
      end
  end.

Definition assignOutputs (o : list string) : M unit :=
  e <- getThis ;;
  setThis (set_common e (set_jobInfo (common e) (set_outputs (e_jobInfo (common e)) o))).

(** [fmt.Sprintf("%ssrun %s singularity %s %s %s %s > %s &", ...)] *)
Definition interactiveCmd (exports opts : string) (s : singularityInfo)
    (args : list string) (redirectFile : string) : string :=
  exports ++ "srun " ++ opts ++ " singularity " ++ command s ++ " " ++
  strings.Join args " " ++ " " ++ imageURI s ++ " " ++ exec s ++ " > " ++
  redirectFile ++ " &".

Definition runInteractiveMode (opts : string) : M unit :=
  e <- getThis ;;
  (* Add inputs as env variables *)
  let exports := rangeExports (inputs (e_jobInfo (common e))) in
  let redirectFile := UniqueTimestampedName env "yorc_" "" in
  assignOutputs [redirectFile] ;;;
  s <- derefSingularityInfo ;;
  let cmd := interactiveCmd exports opts s (execArgs (e_jobInfo (common e)))
               redirectFile in
  let cmd := strings.Trim cmd "" in
  emit (RunCommand cmd) ;;;
  match client_RunCommand env cmd with
  | (output, Some err) => fail (errors_Wrap err output)
  | (_, None) => ret tt
  end.

Definition searchForBatchOutputs : M unit :=
  e <- getThis ;;
  assignOutputs (parseOutputConfigFromOpts env (opts (e_jobInfo (common e)))).

Definition runJobCommand : M unit :=
  e <- getThis ;;
  let opts := fillJobCommandOpts env (common e) in
  setThis (set_common e (set_OperationRemoteExecDir (common e)
                           (OperationRemoteBaseDir (common e)))) ;;;
  e <- getThis ;;
  if batchMode (e_jobInfo (common e)) then
    (* get outputs for batch mode *)
    searchForBatchOutputs ;;;
    runBatchMode opts
  else
    runInteractiveMode opts ;;;
    (* retrieve jobInfo *)
    onCommon (retrieveJobID env).

Definition unsupportedOperation (name : string) : error :=
  errors_Errorf "Unsupported operation %q" name.

Definition executeAsync : M (Action env * Z) :=
  e <- getThis ;;
  (* Only runnable operation is currently supported *)
  if String.eqb (strings.ToLower (unicodeLower env) (Name (operation (common e))))
       runnableRun then
    (* Build Job Information *)
    wrapped (onCommon (buildJobInfo env)) "failed to build job information" ;;;
    (* Build singularity information *)
    wrapped buildSingularityInfo "failed to build singularity information" ;;;
    (* Run the command *)
    wrapped runJobCommand "failed to run command" ;;;
    e <- getThis ;;
    ret (buildJobMonitoringAction env (common e),
         monitoringTimeInterval (e_jobInfo (common e)))
  else
    fail (unsupportedOperation (Name (operation (common e)))).

End Driver.

(** ** The dispatch with the transport use of the collaborators

    [buildJobInfo] and [retrieveJobID] are methods of the embedded
    [executionCommon], which owns [e.client]: what they send through the
    transport belongs to the dispatch that calls them.  [clientUse] gives,
    for each of them, the commands it runs when it is called on a given
    execution; the two methods of this file that call them are taken up
    again with these commands on the trace. *)

Record clientUse : Type := {
  buildJobInfo_commands : executionCommon -> list string;
  retrieveJobID_commands : executionCommon -> list string
}.

(** Modelled from the spec: [buildJobInfo] and [retrieveJobID], methods of
    [executionCommon] that are not part of this file.  The job and
    environment builder supplies already-populated context, and the job
    identifier of an interactive submission is obtained by a separate
    lookup keyed by deployment and node identity: neither runs a command
    through the transport of the dispatch. *)
Definition quietUse : clientUse :=
  {| buildJobInfo_commands := fun _ => [];
     retrieveJobID_commands := fun _ => [] |}.

(** The commands [cmds] go through [e.client.RunCommand]. *)
Definition sendAll (cmds : list string) : M unit :=
  fun w => (Ret tt, {| this := this w; trace := trace w ++ map RunCommand cmds |}).

(** A method of the embedded [executionCommon] that runs the commands
    [sent] on its way. *)
Definition onCommonVia (sent : executionCommon -> list string)
    (f : executionCommon -> executionCommon * option error) : M unit :=
  e <- getThis ;;
  sendAll (sent (common e)) ;;;
  onCommon f.

Section DriverVia.

Variable env : collaborators.
Variable use : clientUse.

Definition runJobCommandVia : M unit :=
  e <- getThis ;;
  let opts := fillJobCommandOpts env (common e) in
  setThis (set_common e (set_OperationRemoteExecDir (common e)
                           (OperationRemoteBaseDir (common e)))) ;;;
  e <- getThis ;;
  if batchMode (e_jobInfo (common e)) then
    (* get outputs for batch mode *)
    searchForBatchOutputs env ;;;
    runBatchMode env opts
  else
    runInteractiveMode env opts ;;;
    (* retrieve jobInfo *)
    onCommonVia (retrieveJobID_commands use) (retrieveJobID env).

Definition executeAsyncVia : M (Action env * Z) :=
  e <- getThis ;;
  (* Only runnable operation is currently supported *)
  if String.eqb (strings.ToLower (unicodeLower env) (Name (operation (common e))))
       runnableRun then
    (* Build Job Information *)
    wrapped (onCommonVia (buildJobInfo_commands use) (buildJobInfo env))
      "failed to build job information" ;;;
    (* Build singularity information *)
    wrapped (buildSingularityInfo env) "failed to build singularity information" ;;;
    (* Run the command *)
    wrapped runJobCommandVia "failed to run command" ;;;
    e <- getThis ;;
    ret (buildJobMonitoringAction env (common e),
         monitoringTimeInterval (e_jobInfo (common e)))
  else
    fail (unsupportedOperation (Name (operation (common e)))).

End DriverVia.

(** ** Readings of a world *)

(** The resolved image URI held by the execution object. *)
Definition resolvedURI (w : world) : option string :=
  option_map imageURI (e_singularityInfo (this w)).

Definition isRunCommand (ev : event) : bool :=
  match ev with
  | RunCommand _ => true
  | _ => false
  end.

(** The commands handed to the transport, oldest first. *)
Definition commandsRun (t : list event) : list string :=
  flat_map (fun ev => match ev with RunCommand cmd => [cmd] | _ => [] end) t.

(** Number of [RunCommand] calls in a trace. *)
Definition transportCalls (t : list event) : nat := List.length (commandsRun t).

(** ** Error kinds *)

Definition UnsupportedOperation (err : error) : Prop :=
  exists name, err = unsupportedOperation name.

Definition UnresolvableImage (err : error) : Prop :=
  exists name, err = unresolvable name.

Definition CommandExecutionFailure (err : error) : Prop :=
  exists cause output, err = errors_Wrap cause output.

(** ** Specification-side definitions *)

(** The inputs named [exec_command] that carry a non-empty value. *)
Definition execCommandInputs (ins : list EnvInput) : list EnvInput :=
  filter (fun i => String.eqb (input_Name i) "exec_command" &&
                   negb (String.eqb (input_Value i) "")) ins.

(** The value of the last of them, in input order. *)
Definition lastExecCommand (ins : list EnvInput) : option string :=
  match rev (execCommandInputs ins) with
  | [] => None
  | i :: _ => Some (input_Value i)
  end.

(** The exports as the interface describes them: one [export name=value;]
    per input, in iteration order. *)
Definition exportStatements (ins : list (string * string)) : string :=
  String.concat "" (map (fun kv => "export " ++ fst kv ++ "=" ++ snd kv ++ ";") ins).

(** The rewritten reference as the resolver's contract words it:
    [prefix + host + "/" + pathAfterPrefix]. *)
Definition pathAfterPrefix (pre raw : string) : string :=
  strings.sliceFrom (String.length pre) raw.

Definition substitutedURI (pre host raw : string) : string :=
  pre ++ host ++ "/" ++ pathAfterPrefix pre raw.

(** The part of the raw name that [buildImageURI] keeps: what lies between
    the class prefix and its next occurrence, if any. *)
Definition firstSegment (pre raw : string) : string :=
  let rest := pathAfterPrefix pre raw in
  match strings.Index rest pre with
  | None => rest
  | Some m => strings.sliceTo m rest
  end.

(** Modelled from the spec: [parseJobIDFromBatchOutput], a helper of the
    package that is not part of this file.  The acknowledgment carries the job
    identifier as its final whitespace-delimited token; when there is no
    token the parse fails with [JobIDParseFailure]. *)
Definition JobIDParseFailure : error := errors_New "JobIDParseFailure".

Definition finalToken (s : string) : option string :=
  match rev (strings.Fields s) with
  | [] => None
  | tok :: _ => Some tok
  end.

Definition parseJobIDFromBatchOutput_spec (str : string) : string * option error :=
  match finalToken str with
  | Some id => (id, None)
  | None => ("", Some JobIDParseFailure)
  end.

(** ** Worlds and frames used in the statements *)

(** Image resolution only ever writes the [imageURI] field. *)
Definition sameButURI (s s' : singularityInfo) : Prop :=
  imageName s' = imageName s /\ exec s' = exec s /\ command s' = command s.

(** What a stage leaves alone: the embedded [executionCommon], the fields of
    the container information other than the URI, and the commands run. *)
Definition resolutionFrame (s : singularityInfo) (w w' : world) : Prop :=
  common (this w') = common (this w) /\
  (exists s', e_singularityInfo (this w') = Some s' /\ sameButURI s s') /\
  commandsRun (trace w') = commandsRun (trace w).

(** The container information assembled before the image is resolved. *)
Definition scanned (c : executionCommon) : singularityInfo :=
  let s := set_imageName (fold_left scanInput (EnvInputs c) zeroSingularityInfo)
             (Primary c) in
  if String.eqb (command s) "" then set_command s "run" else s.

Definition withJobInfo (w : world) (j : jobInfo) : world :=
  {| this := set_common (this w) (set_jobInfo (common (this w)) j);
     trace := trace w |}.

Definition afterCommand (w : world) (cmd : string) : world :=
  {| this := this w; trace := trace w ++ [RunCommand cmd] |}.

(** The world on which a submission mode starts: [runJobCommand] has set
    [OperationRemoteExecDir], and in batch mode [searchForBatchOutputs] has
    stored the outputs read from the options. *)
Definition entered (w : world) : world :=
  {| this := set_common (this w)
               (set_OperationRemoteExecDir (common (this w))
                  (OperationRemoteBaseDir (common (this w))));
     trace := trace w |}.

Definition batchReady (env : collaborators) (w : world) : world :=
  withJobInfo (entered w)
    (set_outputs (e_jobInfo (common (this w)))
       (parseOutputConfigFromOpts env (opts (e_jobInfo (common (this w)))))).

(** The outcomes of a dispatch that got as far as its run-command stage. *)
Definition submitted {A : Type} (o : outcome A) : bool :=
  match o with
  | Ret _ => true
  | Fail (errors_Wrap _ message) => String.eqb message "failed to run command"
  | _ => false
  end.

(** ** The outcomes of [buildImageURI] *)

(** The two requests to the deployment store. *)
Definition repositoryQuery (c : executionCommon) : event :=
  GetOperationImplementationRepository (deploymentID c)
    (ImplementedInNodeTemplate (operation c)) (NodeType c) (Name (operation c)).

Definition urlQuery (c : executionCommon) (repoName : string) : event :=
  GetRepositoryURLFromName (deploymentID c) repoName.

Definition repositoryOf (env : collaborators) (c : executionCommon)
  : string * option error :=
  operationImplementationRepository env (deploymentID c)
    (ImplementedInNodeTemplate (operation c)) (NodeType c) (Name (operation c)).

(** The world after the requests [evs], the execution object being as it
    was. *)
Definition asked (w : world) (evs : list event) : world :=
  {| this := this w; trace := trace w ++ evs |}.

(** The world after the requests [evs] and [e.singularityInfo.imageURI = uri]. *)
Definition resolvedTo (w : world) (s : singularityInfo) (uri : string)
    (evs : list event) : world :=
  {| this := set_singularityInfo (this w) (Some (set_imageURI s uri));
     trace := trace w ++ evs |}.

(** One rule per path through [buildImageURI], for the container
    information [s] and the prefix [pre]. *)
Inductive imageResolution (env : collaborators) (pre : string)
    (s : singularityInfo) (w : world) : outcome unit * world -> Prop :=
| RepositoryLookupFails (repoName : string) (err : error) :
    repositoryOf env (common (this w)) = (repoName, Some err) ->
    imageResolution env pre s w
      (Fail err, asked w [repositoryQuery (common (this w))])
| NoRepository :
    repositoryOf env (common (this w)) = ("", None) ->
    imageResolution env pre s w
      (Ret tt, resolvedTo w s (imageName s) [repositoryQuery (common (this w))])
| URLLookupFails (repoName repoURL : string) (err : error) :
    repositoryOf env (common (this w)) = (repoName, None) ->
    repoName <> "" ->
    repositoryURLFromName env (deploymentID (common (this w))) repoName
      = (repoURL, Some err) ->
    imageResolution env pre s w
      (Fail err, asked w [repositoryQuery (common (this w));
                          urlQuery (common (this w)) repoName])
| PublicOrNoURL (repoName repoURL : string) :
    repositoryOf env (common (this w)) = (repoName, None) ->
    repoName <> "" ->
    repositoryURLFromName env (deploymentID (common (this w))) repoName
      = (repoURL, None) ->
    repoURL = "" \/ repoURL = DockerHubURL env \/ repoURL = SingularityHubURL env ->
    imageResolution env pre s w
      (Ret tt, resolvedTo w s (imageName s)
                 [repositoryQuery (common (this w));
                  urlQuery (common (this w)) repoName])
| MalformedURL (repoName repoURL : string) (u : URL) (err : error) :
    repositoryOf env (common (this w)) = (repoName, None) ->
    repoName <> "" ->
    repositoryURLFromName env (deploymentID (common (this w))) repoName
      = (repoURL, None) ->
    repoURL <> "" -> repoURL <> DockerHubURL env ->
    repoURL <> SingularityHubURL env ->
    url_Parse env repoURL = (u, Some err) ->
    imageResolution env pre s w
      (Fail err, asked w [repositoryQuery (common (this w));
                          urlQuery (common (this w)) repoName])
| PrivateRegistry (repoName repoURL : string) (u : URL) :
    repositoryOf env (common (this w)) = (repoName, None) ->
    repoName <> "" ->
    repositoryURLFromName env (deploymentID (common (this w))) repoName
      = (repoURL, None) ->
    repoURL <> "" -> repoURL <> DockerHubURL env ->
    repoURL <> SingularityHubURL env ->
    url_Parse env repoURL = (u, None) ->
    imageResolution env pre s w
      (Ret tt, resolvedTo w s
                 (pre ++ path.Join [Host u; firstSegment pre (imageName s)])
                 [repositoryQuery (common (this w));
                  urlQuery (common (this w)) repoName]).


(** The messages with which [executeAsync] wraps the failure of a stage. *)
Definition stageMessages : list string :=
  [ "failed to build job information";
    "failed to build singularity information";
    "failed to run command" ].

(** The class prefix that [resolveContainerImage] recognises in a name. *)
Definition classPrefix (name : string) : option string :=
  if strings.HasPrefix name "docker://" then Some "docker://"
  else if strings.HasPrefix name "shub://" then Some "shub://"
  else None.

(** The world in which [buildSingularityInfo] starts resolving the image. *)
Definition scannedWorld (w : world) : world :=
  {| this := set_singularityInfo (this w) (Some (scanned (common (this w))));
     trace := trace w |}.

(** ** A sample deployment, used to run the driver on concrete requests *)

Module Sample.

Definition registryURL : string := "https://reg.example.com".

Definition parsed (u : string) : URL * option error :=
  if String.eqb u registryURL
  then ({| Scheme := "https"; Host := "reg.example.com"; Path := "" |}, None)
  else ({| Scheme := ""; Host := ""; Path := "" |},
        Some (errors_New "parse: unknown URL")).

(** [reply] is what the transport answers to every command. *)
Definition env (reply : string * option error) : collaborators :=
  {| Action := string * string;
     unicodeLower := fun s => s;
     DockerHubURL := "https://hub.docker.com/";
     SingularityHubURL := "https://singularity-hub.org/";
     operationImplementationRepository := fun _ _ _ _ => ("myrepo", None);
     repositoryURLFromName := fun _ _ => (registryURL, None);
     url_Parse := parsed;
     client_RunCommand := fun _ => reply;
     UniqueTimestampedName := fun pre suffix => pre ++ "20181105-0001" ++ suffix;
     buildJobInfo := fun c => (c, None);
     fillJobCommandOpts := fun _ => "";
     parseOutputConfigFromOpts := fun _ => [];
     parseJobIDFromBatchOutput := parseJobIDFromBatchOutput_spec;
     retrieveJobID := fun c => (c, None);
     buildJobMonitoringAction := fun c => (deploymentID c, ID (e_jobInfo c)) |}.

Definition accepted : string * option error :=
  ("Submitted batch job 4821" ++ newline, None).

Definition refused : string * option error :=
  ("sbatch: error: invalid partition", Some (errors_New "exit status 1")).

Definition job (batch : bool) (ins : list (string * string)) (args : list string)
  : jobInfo :=
  {| ID := ""; batchMode := batch; monitoringTimeInterval := 5%Z;
     inputs := ins; outputs := []; execArgs := args; opts := [] |}.

Definition request (name image : string) (envInputs : list EnvInput) (j : jobInfo)
  : world :=
  {| this :=
       {| common :=
            {| deploymentID := "dep"; NodeType := "yorc.nodes.slurm.Job";
               operation := {| Name := name; ImplementedInNodeTemplate := "job" |};
               EnvInputs := envInputs; Primary := image;
               OperationRemoteBaseDir := "/work"; OperationRemoteExecDir := "";
               e_jobInfo := j |};
          e_singularityInfo := None |};
     trace := [] |}.

Definition info (uri cmd ex : string) : singularityInfo :=
  {| imageName := uri; imageURI := uri; exec := ex; command := cmd |}.

(** A world in which the container information is already built. *)
Definition prepared (s : singularityInfo) (j : jobInfo) : world :=
  {| this := set_singularityInfo (this (request runnableRun (imageName s) [] j)) (Some s);
     trace := [] |}.

End Sample.

(** The execution as [runJobCommand] leaves it before the transport is
    called: [OperationRemoteExecDir] is the base directory and the outputs of
    the job are [outs]. *)
Definition readied (c : executionCommon) (outs : list string) : executionCommon :=
  set_jobInfo (set_OperationRemoteExecDir c (OperationRemoteBaseDir c))
    (set_outputs (e_jobInfo c) outs).

(** The world after [buildJobInfo] has run and sent its commands. *)
Definition jobInfoBuilt (env : collaborators) (use : clientUse) (w : world)
  : world :=
  {| this := set_common (this w) (fst (buildJobInfo env (common (this w))));
     trace := trace w ++
              map RunCommand (buildJobInfo_commands use (common (this w))) |}.

(** A use of the transport by the collaborators, for sample runs:
    [retrieveJobID] asks the scheduler for the job. *)
Definition squeueUse : clientUse :=
  {| buildJobInfo_commands := fun _ => [];
     retrieveJobID_commands := fun _ => ["squeue --noheader --name=job -o %A"] |}.

(** The outputs that each mode stores before it calls the transport. *)
Definition expectedOutputs (env : collaborators) (c : executionCommon)
  : list string :=
  if batchMode (e_jobInfo c)
  then parseOutputConfigFromOpts env (opts (e_jobInfo c))
  else [UniqueTimestampedName env "yorc_" ""].

(** A deployment whose collaborators answer as told: [repo] and [url] are
    the answers of the deployment store, [reply] that of the transport,
    [jobError] and [retrieveError] the errors of [buildJobInfo] and
    [retrieveJobID], which reports the identifier [77]. *)
Module Scenario.

Definition env (repo url reply : string * option error)
    (jobError retrieveError : option error) : collaborators :=
  {| Action := string * string;
     unicodeLower := fun s => s;
     DockerHubURL := "https://hub.docker.com/";
     SingularityHubURL := "https://singularity-hub.org/";
     operationImplementationRepository := fun _ _ _ _ => repo;
     repositoryURLFromName := fun _ _ => url;
     url_Parse := Sample.parsed;
     client_RunCommand := fun _ => reply;
     UniqueTimestampedName := fun pre suffix => pre ++ "20181105-0002" ++ suffix;
     buildJobInfo := fun c => (c, jobError);
     fillJobCommandOpts := fun _ => "--mem=1G";
     parseOutputConfigFromOpts := fun _ => ["slurm-%j.out"];
     parseJobIDFromBatchOutput := parseJobIDFromBatchOutput_spec;
     retrieveJobID :=
       fun c => (set_jobInfo c (set_ID (e_jobInfo c) "77"), retrieveError);
     buildJobMonitoringAction := fun c => (deploymentID c, ID (e_jobInfo c)) |}.

Definition storeDown : error := errors_New "Unexpected response code: 500".

Definition badURL : error := errors_New "parse: unknown URL".

End Scenario.

(** * Elasticsearch helpers of the log and event store

    Shallow embedding of [storage/internal/elastic/es_utils.go]:
    [handleESResponseError], [sendBulkRequest], [doQueryEs] and
    [decodeEsQueryResponse].  The Elasticsearch client, the JSON decoder and
    encoder and [parseInt64StringToUint64] are collaborators.  The calls to
    [log.Printf] and [log.Debugf] are left out, as above. *)

Unset Implicit Arguments.

Module elastic.

#[local] Set Warnings "-register-all".

(** A Go [interface{}] holding decoded JSON: nil, [bool], [float64],
    [string], [[]interface{}] or [map[string]interface{}].  A map is kept as
    the list of its entries. *)
Inductive value (float64 : Type) : Type :=
| Nil
| Bool (b : bool)
| Float64 (f : float64)
| Str (s : string)
| Slice (elems : list (value float64))
| Map (entries : list (string * value float64)).

Arguments Nil {float64}.
Arguments Bool {float64} b.
Arguments Float64 {float64} f.
Arguments Str {float64} s.
Arguments Slice {float64} elems.
Arguments Map {float64} entries.

(** [m[key]]: the zero value, nil, when the key is absent. *)
Fixpoint index {float64 : Type} (m : list (string * value float64)) (key : string)
  : value float64 :=
  match m with
  | [] => Nil
  | (k, v) :: m' => if String.eqb k key then v else index m' key
  end.

(** Go [error] values of this package, and the arguments of their formats. *)
Inductive esError (float64 : Type) : Type :=
| External (description : string)
| Wrapf (cause : esError float64) (format : string) (args : list (arg float64))
| Errorf (format : string) (args : list (arg float64))
with arg (float64 : Type) : Type :=
| ArgS (s : string)
| ArgD (n : Z)
| ArgV (v : value float64)
| ArgE (e : option (esError float64)).

Arguments External {float64} description.
Arguments Wrapf {float64} cause format args.
Arguments Errorf {float64} format args.
Arguments ArgS {float64} s.
Arguments ArgD {float64} n.
Arguments ArgV {float64} v.
Arguments ArgE {float64} e.

(** [errors.Wrapf] of [github.com/pkg/errors]: if [err] is nil, [Wrapf]
    returns nil. *)
Definition errors_Wrapf {float64 : Type} (err : option (esError float64))
    (format : string) (args : list (arg float64)) : option (esError float64) :=
  match err with
  | None => None
  | Some cause => Some (Wrapf cause format args)
  end.

(** [esapi.Response], the fields read here, for a response that has a
    body: [Body] stands for the reader [res.Body], never nil, and is kept as
    the bytes it yields. *)
Record Response : Type := {
  StatusCode : Z;
  Body : string
}.

(** [func (r *Response) IsError() bool { return r.StatusCode > 299 }] *)
Definition IsError (res : Response) : bool := (299 <? StatusCode res)%Z.

(** [store.KeyValueOut] *)
Record KeyValueOut (float64 : Type) : Type := {
  Key : string;
  LastModifyIndex : N;
  Value : list (string * value float64);
  RawValue : string
}.

Arguments Key {float64} k.
Arguments LastModifyIndex {float64} k.
Arguments Value {float64} k.
Arguments RawValue {float64} k.

(** The collaborators: the client ([c.Search], [esapi.BulkRequest.Do]), which
    returns a response pointer, nil or not, and an error; the methods
    [Status] and [String] of a response; [json.NewDecoder(body).Decode(&m)]
    into a nil map [m], giving the map as it is afterwards and the error;
    [json.Marshal] of a map; [parseInt64StringToUint64]; and the conversion
    [int(f)] of a [float64]. *)
Record services : Type := {
  float64 : Type;
  toInt : float64 -> Z;
  search : string -> Z -> string -> string ->
           option Response * option (esError float64);
  bulk : string -> option Response * option (esError float64);
  res_Status : Response -> string;
  res_String : Response -> string;
  json_Decode : string -> list (string * value float64) * option (esError float64);
  json_Marshal : list (string * value float64) -> string * option (esError float64);
  parseInt64StringToUint64 : string -> N * option (esError float64)
}.

(** A function returns, or panics. *)
Inductive result (A : Type) : Type :=
| Val (a : A)
| Panicked (reason : string).

Arguments Val {A} a.
Arguments Panicked {A} reason.

Definition andThen {A B : Type} (r : result A) (k : A -> result B) : result B :=
  match r with
  | Val a => k a
  | Panicked reason => Panicked reason
  end.

Definition nilDereference : string :=
  "invalid memory address or nil pointer dereference".

Definition badConversion : string := "interface conversion".

(** The type assertions [v.(map[string]interface{})], [v.([]interface{})],
    [v.(string)], [v.(float64)] and [v.(bool)]. *)
Definition assertMap {float64 : Type} (v : value float64)
  : result (list (string * value float64)) :=
  match v with Map m => Val m | _ => Panicked badConversion end.

Definition assertSlice {float64 : Type} (v : value float64)
  : result (list (value float64)) :=
  match v with Slice l => Val l | _ => Panicked badConversion end.

Definition assertString {float64 : Type} (v : value float64) : result string :=
  match v with Str s => Val s | _ => Panicked badConversion end.

Definition assertFloat64 {float64 : Type} (v : value float64) : result float64 :=
  match v with Float64 f => Val f | _ => Panicked badConversion end.

Definition assertBool {float64 : Type} (v : value float64) : result bool :=
  match v with Bool b => Val b | _ => Panicked badConversion end.

Section Functions.

Variable es : services.

(** The values, errors and results at the number type of the services. *)
Definition jsonValue : Type := value (float64 es).
Definition goError : Type := esError (float64 es).
Definition keyValue : Type := KeyValueOut (float64 es).

(** Consider the ES Response and wrap errors when needed *)
Definition handleESResponseError (res : option Response)
    (requestDescription query : string) (requestError : option goError)
  : result (option goError) :=
  match requestError with
  | Some e =>
      Val (Some (Wrapf e "Error while sending %s, query was: %s"
                   [ArgS requestDescription; ArgS query]))
  | None =>
      match res with
      | None => Panicked nilDereference
      | Some res =>
          if IsError res then
            match json_Decode es (Body res) with
            | (_, Some err) =>
                Val (Some (Wrapf err
                  "An error was returned by ES while sending <%s>, status was %s, but the response cannot be decoded, query was: %s, response was: %s"
                  [ArgS requestDescription; ArgS (res_Status es res); ArgS query;
                   ArgS (res_String es res)]))
            | (errResponse, None) =>
                Val (Some (Errorf
                  "An error was returned by ES while sending %s, status was %s, query was: %s, response: %+v"
                  [ArgS requestDescription; ArgS (res_Status es res); ArgS query;
                   ArgV (Map errResponse)]))
            end
          else Val None
      end
  end.

(** Send the bulk request to ES and ensure no error is returned.
    [defer res.Body.Close()] reads through [res] at once. *)
Definition sendBulkRequest (opeCount : Z) (body : string) : result (option goError) :=
  match bulk es body with
  | (None, _) => Panicked nilDereference
  | (Some res, Some err) => Val (Some err)
  | (Some res, None) =>
      if IsError res then
        handleESResponseError (Some res) "BulkRequest" body None
      else
        let '(rsp, _) := json_Decode es (Body res) in
        andThen (assertBool (index rsp "errors")) (fun errors =>
        if errors then
          (* The bulk request contains errors *)
          Val (Some (Errorf
            "The bulk request succeeded, but the response contains errors : %+v"
            [ArgV (Map rsp)]))
        else Val None)
  end.

(** The body of the loop of [decodeEsQueryResponse] on one hit: the last
    index and the values after it. *)
Definition decodeHit (state : N * list keyValue) (hit : jsonValue)
  : result (N * list keyValue) :=
  let '(lastIndex, values) := state in
  andThen (assertMap hit) (fun h =>
  andThen (assertString (index h "_id")) (fun id =>
  andThen (assertMap (index h "_source")) (fun source =>
  let iid := index source "iid" in
  andThen (assertString iid) (fun iidString =>
  match parseInt64StringToUint64 es iidString with
  | (_, Some _) => Val (lastIndex, values)
  | (iidInt64, None) =>
      match json_Marshal es source with
      | (_, Some _) => Val (lastIndex, values)
      | (jsonString, None) =>
          (* since the result is sorted on iid, we can use the last hit to
             define lastIndex *)
          Val (iidInt64,
               (values ++ [ {| Key := id; LastModifyIndex := iidInt64;
                               Value := source; RawValue := jsonString |} ])%list)
      end
  end)))).

Fixpoint rangeHits (hits : list jsonValue) (state : N * list keyValue)
  : result (N * list keyValue) :=
  match hits with
  | [] => Val state
  | hit :: hits' => andThen (decodeHit state hit) (rangeHits hits')
  end.

(** Decode the response and define the last index.  The named result
    [lastIndex] starts at zero; the values are appended to [*values]. *)
Definition decodeEsQueryResponse (r : list (string * jsonValue))
    (values : list keyValue) : result (N * list keyValue) :=
  andThen (assertMap (index r "hits")) (fun outer =>
  andThen (assertSlice (index outer "hits")) (fun hits =>
  rangeHits hits (0%N, values))).

(** Query ES for events or logs specifying the expected results 'size' and
    the sort 'order'.  The result is [(hits, values, lastIndex, err)]. *)
Definition doQueryEs (index_ query : string) (waitIndex : N) (size : Z)
    (order : string) : result (Z * list keyValue * N * option goError) :=
  let lastIndex := waitIndex in
  match search es index_ size query ("iid:" ++ order) with
  | (_, Some e) =>
      (* [err] is the named result, still nil *)
      let err := errors_Wrapf None
        "Failed to perform ES search on index %s, query was: <%s>, error was: %+v"
        [ArgS index_; ArgS query; ArgE None] in
      Val (0%Z, [], lastIndex, err)
  | (None, None) => Panicked nilDereference
  | (Some res, None) =>
      andThen (handleESResponseError (Some res) ("Search:" ++ index_) query None)
        (fun err =>
      match err with
      | Some _ => Val (0%Z, [], lastIndex, err)
      | None =>
          match json_Decode es (Body res) with
          | (_, Some decodeErr) =>
              Val (0%Z, [], lastIndex,
                   errors_Wrapf (Some decodeErr)
                     "Not able to decode ES response while performing ES search on index %s, query was: <%s>, response code was %d (%s)"
                     [ArgS index_; ArgS query; ArgD (StatusCode res);
                      ArgS (res_Status es res)])
          | (r, None) =>
              andThen (assertMap (index r "hits")) (fun outer =>
              andThen (assertFloat64 (index outer "total")) (fun total =>
              let hits := toInt es total in
              andThen (assertFloat64 (index r "took")) (fun took =>
              andThen (decodeEsQueryResponse r []) (fun decoded =>
              Val (hits, snd decoded, fst decoded, None)))))
          end
      end)
  end.

(** The value that a hit contributes to the result: none when its [iid]
    does not parse or its source cannot be marshalled. *)
Definition keptOf (hit : jsonValue) : list keyValue :=
  match hit with
  | Map h =>
      match index h "_id", index h "_source" with
      | Str id, Map source =>
          match index source "iid" with
          | Str iidString =>
              match parseInt64StringToUint64 es iidString, json_Marshal es source with
              | (iidInt64, None), (jsonString, None) =>
                  [ {| Key := id; LastModifyIndex := iidInt64;
                       Value := source; RawValue := jsonString |} ]
              | _, _ => []
              end
          | _ => []
          end
      | _, _ => []
      end
  | _ => []
  end.

(** The index of the last value of a list, [start] when there is none. *)
Definition lastIndexOf (start : N) (values : list keyValue) : N :=
  match rev values with
  | [] => start
  | kv :: _ => LastModifyIndex kv
  end.

(** The array of hits of a decoded response, when it has one. *)
Definition hitsOf (r : list (string * jsonValue)) : option (list jsonValue) :=
  match index r "hits" with
  | Map outer => match index outer "hits" with Slice hits => Some hits | _ => None end
  | _ => None
  end.

End Functions.

End elastic.

(** An Elasticsearch whose answers are told: [found] is the answer of the
    client to searches and bulk requests; the body of a response stands for
    the JSON document it decodes to. *)
Module ElasticSample.

Import elastic.

Definition doc (id iid : string) : value Z :=
  Map [("_id", Str id); ("_source", Map [("iid", Str iid); ("type", Str "log")])].

Definition page : list (string * value Z) :=
  [("took", Float64 3%Z);
   ("hits", Map [("total", Float64 3%Z);
                 ("hits", Slice [doc "a" "7"; doc "b" "seven"; doc "c" "9"])])].

Definition emptyPage : list (string * value Z) :=
  [("took", Float64 1%Z);
   ("hits", Map [("total", Float64 0%Z); ("hits", Slice [])])].

Definition decode (body : string) : list (string * value Z) * option (esError Z) :=
  if String.eqb body "page" then (page, None)
  else if String.eqb body "empty" then (emptyPage, None)
  else if String.eqb body "accepted" then ([("errors", Bool false)], None)
  else if String.eqb body "rejected" then ([("errors", Bool true)], None)
  else if String.eqb body "reason" then ([("error", Str "index_not_found")], None)
  else ([], Some (External "invalid character '<' looking for beginning of value")).

Definition parse (s : string) : N * option (esError Z) :=
  if String.eqb s "7" then (7%N, None)
  else if String.eqb s "9" then (9%N, None)
  else (0%N, Some (External "strconv.ParseInt: invalid syntax")).

Definition es (found : option Response * option (esError Z)) : services :=
  {| float64 := Z;
     toInt := fun f => f;
     search := fun _ _ _ _ => found;
     bulk := fun _ => found;
     res_Status := fun _ => "status";
     res_String := fun res => Body res;
     json_Decode := decode;
     json_Marshal := fun _ => ("{}", None);
     parseInt64StringToUint64 := parse |}.

Definition answer (code : Z) (body : string) : option Response * option (esError Z) :=
  (Some {| StatusCode := code; Body := body |}, None).

Definition refused : option Response * option (esError Z) :=
  (None, Some (External "dial tcp: connection refused")).

End ElasticSample.

Set Implicit Arguments.

(** * Properties *)

(** ** The library functions on sample arguments *)

Example Split_docker :
  strings.Split "docker://team/img:1" "docker://" = [""; "team/img:1"] /\
  strings.Split "docker://a/docker://b" "docker://" = [""; "a/"; "b"] /\
  strings.Split "a,b,,c" "," = ["a"; "b"; ""; "c"] /\
  strings.Split "abc" "," = ["abc"].
Proof. repeat split; reflexivity. Qed.

Example Clean_examples :
  path.Clean "a//b/./c/../d/" = "a/b/d" /\ path.Clean "/../a" = "/a" /\
  path.Clean "../../a/.." = "../.." /\ path.Clean "a/.." = "." /\
  path.Clean "abc/def/../../.." = ".." /\ path.Clean "/abc/def/../../.." = "/" /\
  path.Clean "abc/def/../../../ghi/jkl/../../../mno" = "../../mno" /\
  path.Clean "abc/../../././../def" = "../../def" /\
  path.Clean "abc/def/ghi/../jkl" = "abc/def/jkl" /\
  path.Clean "///abc" = "/abc" /\ path.Clean "/abc/" = "/abc" /\
  path.Clean "" = "." /\ path.Clean "/" = "/" /\ path.Clean ".." = "..".
Proof. repeat split; reflexivity. Qed.

Example Join_examples :
  path.Join ["reg.example.com"; "team/img:1"] = "reg.example.com/team/img:1" /\
  path.Join [""; "img"] = "img" /\ path.Join ["h"; ""] = "h" /\
  path.Join [""; ""] = "".
Proof. repeat split; reflexivity. Qed.

Example Trim_examples :
  strings.Trim ("Submitted batch job 4821" ++ newline) newline = "Submitted batch job 4821" /\
  strings.Trim "  x  " "" = "  x  " /\
  strings.TrimSpace "  x  " = "x".
Proof. repeat split; reflexivity. Qed.

Example ToLower_mixed_case :
  strings.ToLower (fun s => s) "Tosca.Interfaces.Node.Lifecycle.Runnable.Run" = runnableRun.
Proof. reflexivity. Qed.

(** ** Facts about strings *)

Lemma append_empty_r (s : string) : s ++ "" = s.
Proof. induction s as [|c s IH]; simpl; [reflexivity | now rewrite IH]. Qed.

Lemma append_assoc (a b c : string) : (a ++ b) ++ c = a ++ (b ++ c).
Proof. induction a as [|x a IH]; simpl; [reflexivity | now rewrite IH]. Qed.

Lemma length_append (a b : string) :
  String.length (a ++ b) = String.length a + String.length b.
Proof. induction a as [|x a IH]; simpl; [reflexivity | now rewrite IH]. Qed.

Lemma sliceFrom_append (a b : string) :
  strings.sliceFrom (String.length a) (a ++ b) = b.
Proof. induction a as [|x a IH]; simpl; [reflexivity | exact IH]. Qed.

Lemma prefix_append (a b : string) : String.prefix a (a ++ b) = true.
Proof.
  induction a as [|x a IH]; simpl.
  - now destruct b.
  - destruct (ascii_dec x x) as [_|N]; [exact IH | now elim N].
Qed.

Lemma prefix_split (p s : string) :
  String.prefix p s = true -> s = p ++ strings.sliceFrom (String.length p) s.
Proof.
  revert s; induction p as [|x p IH]; intros s H; simpl.
  - reflexivity.
  - destruct s as [|y s]; simpl in H; [discriminate|].
    destruct (ascii_dec x y) as [->|_]; [|discriminate].
    simpl. now rewrite <- IH.
Qed.

Lemma Index_unfold (s substr : string) :
  strings.Index s substr =
  if String.prefix substr s then Some 0
  else match s with
       | EmptyString => None
       | String _ s' => option_map S (strings.Index s' substr)
       end.
Proof. destruct s; reflexivity. Qed.

Lemma Index_bound (s substr : string) (m : nat) :
  strings.Index s substr = Some m -> m + String.length substr <= String.length s.
Proof.
  revert m; induction s as [|c s IH]; intros m; rewrite Index_unfold.
  - destruct substr; simpl; [intros [= <-]; simpl; lia | discriminate].
  - destruct (String.prefix substr (String c s)) eqn:P.
    + intros [= <-]. apply prefix_split in P.
      apply (f_equal String.length) in P. rewrite length_append in P. lia.
    + destruct (strings.Index s substr) as [k|]; simpl; [|discriminate].
      intros [= <-]. specialize (IH k eq_refl). simpl. lia.
Qed.

Lemma countLoop_absent (fuel : nat) (s substr : string) :
  strings.Index s substr = None -> strings.countLoop fuel s substr = 0.
Proof. intros H. destruct fuel; simpl; [reflexivity | now rewrite H]. Qed.

Lemma length_nonempty (s : string) : s <> "" -> 1 <= String.length s.
Proof. destruct s; simpl; [congruence | lia]. Qed.

Lemma Split_nonempty_sep (s sep : string) :
  sep <> "" -> strings.Split s sep = strings.genSplit (strings.Count s sep) s sep.
Proof. destruct sep; [congruence | reflexivity]. Qed.

Lemma Count_nonempty_sep (s sep : string) :
  sep <> "" -> strings.Count s sep = strings.countLoop (String.length s) s sep.
Proof. destruct sep; [congruence | reflexivity]. Qed.

(** After a separator that opens the string, the second piece of [Split] is
    the text up to the next separator. *)
Lemma Split_second (raw pre : string) :
  pre <> "" -> strings.HasPrefix raw pre = true ->
  nth_error (strings.Split raw pre) 1 = Some (firstSegment pre raw).
Proof.
  intros Hne Hpre. unfold strings.HasPrefix in Hpre.
  pose proof (prefix_split _ _ Hpre) as Hraw.
  pose proof (length_nonempty Hne) as Hlen.
  unfold firstSegment, pathAfterPrefix.
  set (rest := strings.sliceFrom (String.length pre) raw) in *.
  rewrite (Split_nonempty_sep _ Hne), (Count_nonempty_sep _ Hne).
  assert (Hl : String.length raw = S (String.length pre - 1 + String.length rest)).
  { rewrite Hraw at 1. rewrite length_append. lia. }
  rewrite Hl. cbn [strings.countLoop].
  rewrite (Index_unfold raw pre), Hpre. cbn [Nat.add].
  fold rest. cbn [strings.genSplit].
  rewrite (Index_unfold raw pre), Hpre. cbn [Nat.add nth_error].
  fold rest.
  destruct (strings.Index rest pre) as [m|] eqn:Hi.
  - pose proof (Index_bound _ _ Hi) as Hb.
    destruct (String.length pre - 1 + String.length rest) as [|f] eqn:Hf; [lia|].
    cbn [strings.countLoop]. rewrite Hi. cbn [strings.genSplit]. now rewrite Hi.
  - rewrite (countLoop_absent _ _ _ Hi).
    reflexivity.
Qed.

Lemma firstSegment_whole (pre rest : string) :
  strings.Index rest pre = None -> firstSegment pre (pre ++ rest) = rest.
Proof.
  intros H. unfold firstSegment, pathAfterPrefix.
  rewrite sliceFrom_append. now rewrite H.
Qed.

Lemma Join_host_path (host rest : string) :
  host <> "" -> path.Join [host; rest] = path.Clean (host ++ "/" ++ rest).
Proof.
  intros Hh. unfold path.Join. cbn [path.joinLoop].
  destruct host as [|c host]; [congruence|].
  reflexivity.
Qed.

Lemma rangeExports_from (ins : list (string * string)) (acc : string) :
  fold_left (fun exports kv => exports ++ exportEntry kv) ins acc =
  acc ++ exportStatements ins.
Proof.
  revert acc; induction ins as [|kv ins IH]; intros acc; simpl.
  - now rewrite append_empty_r.
  - rewrite IH. unfold exportStatements. simpl.
    rewrite append_assoc. f_equal. unfold exportEntry.
    destruct ins as [|kv' ins]; simpl.
    + now rewrite append_empty_r.
    + reflexivity.
Qed.

Lemma rangeExports_statements (ins : list (string * string)) :
  rangeExports ins = exportStatements ins.
Proof. unfold rangeExports. now rewrite rangeExports_from. Qed.

(** ** Running the monad *)

Ltac run :=
  cbv beta iota delta
    [bind ret fail panic getThis setThis emit wrapped orFail onCommon
     derefSingularityInfo assignImageURI assignOutputs assignJobID];
  cbn [this trace common e_singularityInfo fst snd set_singularityInfo
       set_common].

(** [runs H] also resolves the reads of [e.singularityInfo] with [H]. *)
Ltac runs H := repeat (progress (run; rewrite ?H)).

Lemma bind_eq {A B : Type} (m : M A) (k : A -> M B) (w : world) :
  bind m k w =
  match m w with
  | (Ret a, w') => k a w'
  | (Fail err, w') => (Fail err, w')
  | (Panic reason, w') => (Panic reason, w')
  end.
Proof. reflexivity. Qed.

Lemma transportCalls_app (t u : list event) :
  transportCalls (t ++ u) = transportCalls t + transportCalls u.
Proof.
  unfold transportCalls, commandsRun.
  now rewrite flat_map_app, length_app.
Qed.

Lemma commandsRun_app (t u : list event) :
  commandsRun (t ++ u) = (commandsRun t ++ commandsRun u)%list.
Proof. unfold commandsRun. now rewrite flat_map_app. Qed.

(** ** Operation dispatch *)

Lemma executeAsync_other (env : collaborators) (w : world) :
  strings.ToLower (unicodeLower env) (Name (operation (common (this w)))) <> runnableRun ->
  executeAsync env w =
  (Fail (unsupportedOperation (Name (operation (common (this w))))), w).
Proof.
  intros H. unfold executeAsync. run.
  apply String.eqb_neq in H. now rewrite H.
Qed.

(** Once the operation is accepted, the three stages run in sequence and
    each failure is wrapped with the name of its stage. *)
Lemma executeAsync_runnable (env : collaborators) (w : world) :
  strings.ToLower (unicodeLower env) (Name (operation (common (this w)))) = runnableRun ->
  executeAsync env w =
  (wrapped (onCommon (buildJobInfo env)) "failed to build job information" ;;;
   wrapped (buildSingularityInfo env) "failed to build singularity information" ;;;
   wrapped (runJobCommand env) "failed to run command" ;;;
   e <- getThis ;;
   ret (buildJobMonitoringAction env (common e),
        monitoringTimeInterval (e_jobInfo (common e)))) w.
Proof.
  intros H. unfold executeAsync at 1.
  rewrite bind_eq. unfold getThis at 1.
  apply String.eqb_eq in H. now rewrite H.
Qed.

Lemma wrapped_not_unsupported {A : Type} (m : M A) (message : string) (w : world) :
  forall err, fst (wrapped m message w) = Fail err -> ~ UnsupportedOperation err.
Proof.
  intros err H [name E]. unfold wrapped in H.
  destruct (m w) as [[a|e|r] w']; simpl in H; try discriminate.
  injection H as <-. discriminate.
Qed.

Lemma executeAsync_runnable_not_unsupported (env : collaborators) (w : world) :
  strings.ToLower (unicodeLower env) (Name (operation (common (this w)))) = runnableRun ->
  forall err, fst (executeAsync env w) = Fail err -> ~ UnsupportedOperation err.
Proof.
  intros H err. rewrite (executeAsync_runnable _ _ H).
  rewrite bind_eq.
  pose proof (@wrapped_not_unsupported _ (onCommon (buildJobInfo env))
                "failed to build job information" w) as H1.
  destruct (wrapped (onCommon (buildJobInfo env)) _ w) as [[[]|e1|r1] w1];
    [ | simpl; intros [= <-]; exact (H1 e1 eq_refl) | discriminate ].
  clear H1. rewrite bind_eq.
  pose proof (@wrapped_not_unsupported _ (buildSingularityInfo env)
                "failed to build singularity information" w1) as H2.
  destruct (wrapped (buildSingularityInfo env) _ w1) as [[[]|e2|r2] w2];
    [ | simpl; intros [= <-]; exact (H2 e2 eq_refl) | discriminate ].
  clear H2. rewrite bind_eq.
  pose proof (@wrapped_not_unsupported _ (runJobCommand env)
                "failed to run command" w2) as H3.
  destruct (wrapped (runJobCommand env) _ w2) as [[[]|e3|r3] w3];
    [ | simpl; intros [= <-]; exact (H3 e3 eq_refl) | discriminate ].
  discriminate.
Qed.

(** C1. Dispatch accepts exactly the operation whose lower-cased name is
    [tosca.interfaces.node.lifecycle.runnable.run]: it fails with
    [UnsupportedOperation] if and only if the lower-cased name differs from
    this literal, and in that case the world is returned as it was received:
    the execution object is unchanged and the trace has no new entry, so no
    command reached the transport. *)
Theorem dispatch_only_runnable_run (env : collaborators) (w : world) :
  let name := Name (operation (common (this w))) in
  ((exists err, fst (executeAsync env w) = Fail err /\ UnsupportedOperation err) <->
   strings.ToLower (unicodeLower env) name <> runnableRun) /\
  (strings.ToLower (unicodeLower env) name <> runnableRun ->
   executeAsync env w = (Fail (unsupportedOperation name), w) /\
   transportCalls (trace (snd (executeAsync env w))) = transportCalls (trace w)).
Proof.
  intros name. split; [split|].
  - intros [err [Hf Hu]] Heq.
    exact (executeAsync_runnable_not_unsupported env w Heq Hf Hu).
  - intros Hne. exists (unsupportedOperation name).
    rewrite (executeAsync_other env w Hne). split; [reflexivity | now exists name].
  - intros Hne. rewrite (executeAsync_other env w Hne). split; reflexivity.
Qed.

Lemma dispatch_only_runnable_run_witness :
  let w := Sample.request "tosca.interfaces.node.standard.start" "docker://img" []
             (Sample.job true [] []) in
  executeAsync (Sample.env Sample.accepted) w =
    (Fail (unsupportedOperation "tosca.interfaces.node.standard.start"), w) /\
  transportCalls (trace (snd (executeAsync (Sample.env Sample.accepted) w))) = 0.
Proof.
  intros w.
  apply (proj2 (dispatch_only_runnable_run (Sample.env Sample.accepted) w)).
  vm_compute. discriminate.
Defined.

(** ** Container information *)

Lemma sameButURI_set (s : singularityInfo) (uri : string) :
  sameButURI s (set_imageURI s uri).
Proof. repeat split. Qed.

Lemma sameButURI_refl (s : singularityInfo) : sameButURI s s.
Proof. repeat split. Qed.

Create HintDb driver.
#[local] Hint Resolve sameButURI_set sameButURI_refl : driver.

Ltac frame_done :=
  unfold resolutionFrame;
  cbn [this trace common e_singularityInfo set_singularityInfo set_common];
  repeat match goal with
    | |- _ /\ _ => split
    | |- exists _, _ => eexists
    | |- sameButURI _ _ => solve [auto with driver]
    | |- commandsRun _ = _ =>
        rewrite ?commandsRun_app; cbn [commandsRun flat_map app];
        rewrite ?app_nil_r; reflexivity
    | |- _ = _ => reflexivity || eassumption
    end.

Lemma buildImageURI_frame (env : collaborators) (pre : string) (w : world)
    (s : singularityInfo) :
  e_singularityInfo (this w) = Some s ->
  resolutionFrame s w (snd (buildImageURI env pre w)).
Proof.
  intros Hs. unfold buildImageURI, resolutionFrame. run.
  destruct (operationImplementationRepository env _ _ _ _) as [repoName [err|]];
    runs Hs; [now frame_done|].
  destruct (String.eqb repoName ""); runs Hs; [now frame_done|].
  destruct (repositoryURLFromName env _ _) as [repoURL [err|]];
    runs Hs; [now frame_done|].
  destruct (String.eqb repoURL (DockerHubURL env) ||
            String.eqb repoURL (SingularityHubURL env));
    runs Hs; [now frame_done|].
  destruct (negb (String.eqb repoURL "")); runs Hs; [|now frame_done].
  destruct (url_Parse env repoURL) as [u [err|]]; runs Hs; [now frame_done|].
  destruct (nth_error _ 1); runs Hs; now frame_done.
Qed.

Lemma resolveContainerImage_frame (env : collaborators) (w : world)
    (s : singularityInfo) :
  e_singularityInfo (this w) = Some s ->
  resolutionFrame s w (snd (resolveContainerImage env w)).
Proof.
  intros Hs. unfold resolveContainerImage.
  rewrite bind_eq. unfold derefSingularityInfo at 1. runs Hs.
  destruct (strings.HasPrefix (imageName s) "docker://");
    [now apply buildImageURI_frame|].
  destruct (strings.HasPrefix (imageName s) "shub://");
    [now apply buildImageURI_frame|].
  destruct (strings.HasSuffix (imageName s) ".simg" ||
            strings.HasSuffix (imageName s) ".img");
    runs Hs; unfold resolutionFrame; now frame_done.
Qed.

Lemma buildSingularityInfo_missing (env : collaborators) (w : world) :
  Primary (common (this w)) = "" ->
  buildSingularityInfo env w = (Fail missingImageName, w).
Proof.
  intros H. unfold buildSingularityInfo. run.
  cbn [imageName set_imageName]. now rewrite H.
Qed.

Lemma buildSingularityInfo_present (env : collaborators) (w : world) :
  Primary (common (this w)) <> "" ->
  buildSingularityInfo env w =
  resolveContainerImage env
    {| this := set_singularityInfo (this w) (Some (scanned (common (this w))));
       trace := trace w |}.
Proof.
  intros H. unfold buildSingularityInfo. run.
  cbn [imageName set_imageName]. apply String.eqb_neq in H. rewrite H.
  reflexivity.
Qed.

(** The first stage of a dispatch, [buildJobInfo], when it succeeds. *)
Lemma buildJobInfo_stage (env : collaborators) (w : world) (c1 : executionCommon)
    (message : string) :
  buildJobInfo env (common (this w)) = (c1, None) ->
  wrapped (onCommon (buildJobInfo env)) message w =
  (Ret tt, {| this := set_common (this w) c1; trace := trace w |}).
Proof. intros H. unfold wrapped, onCommon. run. rewrite H. reflexivity. Qed.

Lemma buildJobInfo_stage_fails (env : collaborators) (w : world)
    (c1 : executionCommon) (err : error) (message : string) :
  buildJobInfo env (common (this w)) = (c1, Some err) ->
  wrapped (onCommon (buildJobInfo env)) message w =
  (Fail (errors_Wrap err message),
   {| this := set_common (this w) c1; trace := trace w |}).
Proof. intros H. unfold wrapped, onCommon. run. rewrite H. reflexivity. Qed.

(** C7. With an empty image name on the implementation artifact,
    [buildSingularityInfo] fails with the missing-image-name error and hands
    the world back untouched: no container information is stored, no registry
    is queried and nothing is sent to the transport.  A dispatch that gets
    that far returns this error, wrapped with its stage, having added nothing
    to the trace. *)
Theorem empty_image_name_fails_before_any_interaction (env : collaborators) :
  (forall w, Primary (common (this w)) = "" ->
     buildSingularityInfo env w = (Fail missingImageName, w)) /\
  (forall w c1,
     strings.ToLower (unicodeLower env) (Name (operation (common (this w)))) = runnableRun ->
     buildJobInfo env (common (this w)) = (c1, None) ->
     Primary c1 = "" ->
     executeAsync env w =
       (Fail (errors_Wrap missingImageName "failed to build singularity information"),
        {| this := set_common (this w) c1; trace := trace w |})).
Proof.
  split; [exact (buildSingularityInfo_missing env)|].
  intros w c1 Hop Hjob Himg.
  rewrite (executeAsync_runnable _ _ Hop).
  rewrite bind_eq, (buildJobInfo_stage _ _ _ Hjob), bind_eq.
  unfold wrapped at 1.
  rewrite buildSingularityInfo_missing by exact Himg.
  reflexivity.
Qed.

Lemma empty_image_name_fails_before_any_interaction_witness :
  let w := Sample.request runnableRun "" [] (Sample.job true [] []) in
  buildSingularityInfo (Sample.env Sample.accepted) w = (Fail missingImageName, w) /\
  executeAsync (Sample.env Sample.accepted) w =
    (Fail (errors_Wrap missingImageName "failed to build singularity information"), w).
Proof.
  intros w. split.
  - apply (proj1 (empty_image_name_fails_before_any_interaction
                    (Sample.env Sample.accepted)) w).
    reflexivity.
  - apply (proj2 (empty_image_name_fails_before_any_interaction
                    (Sample.env Sample.accepted)) w (common (this w)));
      reflexivity.
Defined.

(** ** The sub-command and the in-container command *)

Lemma lastExecCommand_snoc (ins : list EnvInput) (x : EnvInput) :
  lastExecCommand (ins ++ [x]) =
  if String.eqb (input_Name x) "exec_command" && negb (String.eqb (input_Value x) "")
  then Some (input_Value x)
  else lastExecCommand ins.
Proof.
  unfold lastExecCommand, execCommandInputs.
  rewrite filter_app. cbn [filter].
  destruct (String.eqb (input_Name x) "exec_command" &&
            negb (String.eqb (input_Value x) "")).
  - now rewrite rev_app_distr.
  - now rewrite app_nil_r.
Qed.

(** The loop over [e.EnvInputs] keeps the last non-empty [exec_command]. *)
Lemma scanInput_loop (ins : list EnvInput) (s0 : singularityInfo) :
  let s := fold_left scanInput ins s0 in
  imageName s = imageName s0 /\ imageURI s = imageURI s0 /\
  match lastExecCommand ins with
  | Some v => exec s = v /\ command s = "exec" /\ v <> ""
  | None => exec s = exec s0 /\ command s = command s0
  end.
Proof.
  induction ins as [|x ins IH] using rev_ind; cbn zeta.
  - repeat split.
  - rewrite fold_left_app, lastExecCommand_snoc. cbn [fold_left].
    cbn zeta in IH. destruct IH as (Hn & Hu & IH).
    set (t := fold_left scanInput ins s0) in *.
    unfold scanInput.
    destruct (String.eqb (input_Name x) "exec_command") eqn:En; cbn [andb].
    + destruct (String.eqb (input_Value x) "") eqn:Ev; cbn [negb].
      * repeat split; assumption.
      * cbn. apply String.eqb_neq in Ev. repeat split; assumption.
    + repeat split; assumption.
Qed.

Lemma scanned_choice (c : executionCommon) :
  imageName (scanned c) = Primary c /\
  match lastExecCommand (EnvInputs c) with
  | Some v => command (scanned c) = "exec" /\ exec (scanned c) = v /\ v <> ""
  | None => command (scanned c) = "run" /\ exec (scanned c) = ""
  end.
Proof.
  unfold scanned.
  pose proof (scanInput_loop (EnvInputs c) zeroSingularityInfo) as H.
  cbn zeta in H. destruct H as (_ & _ & H).
  cbn [command set_imageName].
  destruct (lastExecCommand (EnvInputs c)) as [v|].
  - destruct H as (He & Hc & Hv). rewrite Hc. cbn. repeat split; assumption.
  - destruct H as (He & Hc). rewrite Hc. cbn. split; [reflexivity|].
    split; [reflexivity | exact He].
Qed.

(** C9. When the artifact names an image, the container information that
    [buildSingularityInfo] stores has sub-command [exec] and, as in-container
    command, the value of the last input named [exec_command] with a
    non-empty value, if there is one; otherwise the sub-command is [run] and
    the in-container command is empty.  So the in-container command is
    non-empty only under [exec]. *)
Theorem exec_command_selects_subcommand (env : collaborators) (w : world) :
  Primary (common (this w)) <> "" ->
  exists s,
    e_singularityInfo (this (snd (buildSingularityInfo env w))) = Some s /\
    match lastExecCommand (EnvInputs (common (this w))) with
    | Some v => command s = "exec" /\ exec s = v /\ v <> ""
    | None => command s = "run" /\ exec s = ""
    end /\
    (exec s <> "" -> command s = "exec").
Proof.
  intros Himg. rewrite (buildSingularityInfo_present env w Himg).
  set (w1 := {| this := _; trace := _ |}).
  destruct (@resolveContainerImage_frame env w1 (scanned (common (this w))) eq_refl)
    as (_ & (s' & Hs' & Hn & He & Hc) & _).
  exists s'. split; [exact Hs'|].
  destruct (scanned_choice (common (this w))) as (_ & H).
  rewrite He, Hc.
  destruct (lastExecCommand (EnvInputs (common (this w)))) as [v|].
  - split; [exact H|]. intros _. exact (proj1 H).
  - split; [exact H|]. intros Hne. elim Hne. exact (proj2 H).
Qed.

Lemma exec_command_selects_subcommand_witness :
  let ins := [ {| input_Name := "exec_command"; input_Value := "ls" |};
               {| input_Name := "EXEC_COMMAND"; input_Value := "pwd" |};
               {| input_Name := "exec_command"; input_Value := "date" |};
               {| input_Name := "exec_command"; input_Value := "" |} ] in
  let w := Sample.request runnableRun "image.simg" ins (Sample.job true [] []) in
  exists s,
    e_singularityInfo (this (snd (buildSingularityInfo (Sample.env Sample.accepted) w)))
      = Some s /\
    (command s = "exec" /\ exec s = "date" /\ "date" <> "") /\
    (exec s <> "" -> command s = "exec").
Proof.
  intros ins w.
  apply (exec_command_selects_subcommand (Sample.env Sample.accepted) w).
  vm_compute. discriminate.
Defined.

(** ** Image classification *)

Lemma resolveContainerImage_cases (env : collaborators) (w : world)
    (s : singularityInfo) :
  e_singularityInfo (this w) = Some s ->
  resolveContainerImage env w =
  if strings.HasPrefix (imageName s) "docker://" then buildImageURI env "docker://" w
  else if strings.HasPrefix (imageName s) "shub://" then buildImageURI env "shub://" w
  else if strings.HasSuffix (imageName s) ".simg" ||
          strings.HasSuffix (imageName s) ".img"
  then (Ret tt, {| this := set_singularityInfo (this w)
                             (Some (set_imageURI s (imageName s)));
                   trace := trace w |})
  else (Fail (unresolvable (imageName s)), w).
Proof.
  intros Hs. unfold resolveContainerImage.
  rewrite bind_eq. unfold derefSingularityInfo at 1. runs Hs.
  destruct (strings.HasPrefix (imageName s) "docker://"); [reflexivity|].
  destruct (strings.HasPrefix (imageName s) "shub://"); [reflexivity|].
  destruct (strings.HasSuffix (imageName s) ".simg" ||
            strings.HasSuffix (imageName s) ".img"); runs Hs; reflexivity.
Qed.

(** [buildImageURI] starts by asking the deployment store for the
    repository of the operation's implementation. *)
Lemma buildImageURI_asks_first (env : collaborators) (pre : string) (w : world)
    (s : singularityInfo) :
  e_singularityInfo (this w) = Some s ->
  exists rest,
    trace (snd (buildImageURI env pre w)) =
    (trace w ++
     GetOperationImplementationRepository (deploymentID (common (this w)))
       (ImplementedInNodeTemplate (operation (common (this w))))
       (NodeType (common (this w))) (Name (operation (common (this w))))
     :: rest)%list.
Proof.
  intros Hs. unfold buildImageURI. run.
  destruct (operationImplementationRepository env _ _ _ _) as [repoName [err|]];
    runs Hs; [now exists []|].
  destruct (String.eqb repoName ""); runs Hs; [now exists []|].
  destruct (repositoryURLFromName env _ _) as [repoURL [err|]];
    runs Hs; rewrite <- ?app_assoc; cbn [app]; [now eexists|].
  destruct (String.eqb repoURL (DockerHubURL env) ||
            String.eqb repoURL (SingularityHubURL env));
    runs Hs; rewrite <- ?app_assoc; cbn [app]; [now eexists|].
  destruct (negb (String.eqb repoURL "")); runs Hs;
    rewrite <- ?app_assoc; cbn [app]; [|now eexists].
  destruct (url_Parse env repoURL) as [u [err|]]; runs Hs;
    rewrite <- ?app_assoc; cbn [app]; [now eexists|].
  destruct (nth_error _ 1); runs Hs; rewrite <- ?app_assoc; cbn [app];
    now eexists.
Qed.

(** C3. The image name is classified by the first test that holds, in the
    order: prefix [docker://], prefix [shub://], suffix [.simg] or [.img].
    A prefixed name goes through [buildImageURI] for its prefix, whatever its
    suffix, and this begins with a registry lookup.  A name with one of the
    suffixes and no recognised prefix resolves to itself and leaves the trace
    as it was.  A name that passes none of the tests fails with the
    unresolvable-image error and changes nothing. *)
Theorem image_classification_order (env : collaborators) (w : world)
    (s : singularityInfo) :
  e_singularityInfo (this w) = Some s ->
  let name := imageName s in
  (strings.HasPrefix name "docker://" = true ->
     resolveContainerImage env w = buildImageURI env "docker://" w) /\
  (strings.HasPrefix name "docker://" = false ->
   strings.HasPrefix name "shub://" = true ->
     resolveContainerImage env w = buildImageURI env "shub://" w) /\
  (strings.HasPrefix name "docker://" = true \/
   strings.HasPrefix name "shub://" = true ->
     exists rest,
       trace (snd (resolveContainerImage env w)) =
       (trace w ++
        GetOperationImplementationRepository (deploymentID (common (this w)))
          (ImplementedInNodeTemplate (operation (common (this w))))
          (NodeType (common (this w))) (Name (operation (common (this w))))
        :: rest)%list) /\
  (strings.HasPrefix name "docker://" = false ->
   strings.HasPrefix name "shub://" = false ->
   strings.HasSuffix name ".simg" = true \/ strings.HasSuffix name ".img" = true ->
     resolveContainerImage env w =
       (Ret tt, {| this := set_singularityInfo (this w) (Some (set_imageURI s name));
                   trace := trace w |}) /\
     resolvedURI (snd (resolveContainerImage env w)) = Some name /\
     trace (snd (resolveContainerImage env w)) = trace w) /\
  (strings.HasPrefix name "docker://" = false ->
   strings.HasPrefix name "shub://" = false ->
   strings.HasSuffix name ".simg" = false ->
   strings.HasSuffix name ".img" = false ->
     resolveContainerImage env w = (Fail (unresolvable name), w) /\
     UnresolvableImage (unresolvable name)).
Proof.
  intros Hs name. rewrite (resolveContainerImage_cases env w Hs). fold name.
  repeat apply conj.
  - now intros ->.
  - now intros -> ->.
  - intros [H|H].
    + rewrite H. now apply buildImageURI_asks_first with (s := s).
    + destruct (strings.HasPrefix name "docker://");
        [|rewrite H]; now apply buildImageURI_asks_first with (s := s).
  - intros -> -> Hsuf.
    assert (E : strings.HasSuffix name ".simg" || strings.HasSuffix name ".img" = true)
      by (destruct Hsuf as [-> | ->]; [reflexivity | apply orb_true_r]).
    rewrite E. repeat split.
  - intros -> -> -> ->. cbn [orb]. split; [reflexivity | now exists name].
Qed.

Lemma image_classification_order_witness :
  let env := Sample.env Sample.accepted in
  let prepared name := Sample.prepared (Sample.info name "run" "") (Sample.job true [] []) in
  resolveContainerImage env (prepared "docker://team/tool.img") =
    buildImageURI env "docker://" (prepared "docker://team/tool.img") /\
  resolveContainerImage env (prepared "shub://team/tool.simg") =
    buildImageURI env "shub://" (prepared "shub://team/tool.simg") /\
  (exists rest,
     trace (snd (resolveContainerImage env (prepared "docker://team/tool.img"))) =
     GetOperationImplementationRepository "dep" "job" "yorc.nodes.slurm.Job" runnableRun
     :: rest) /\
  trace (snd (resolveContainerImage env (prepared "/images/tool.simg"))) = [] /\
  resolveContainerImage env (prepared "tool.tar") =
    (Fail (unresolvable "tool.tar"), prepared "tool.tar").
Proof.
  intros env prepared.
  pose proof (fun name =>
    @image_classification_order env (prepared name) _ eq_refl) as H.
  repeat apply conj.
  - apply (proj1 (H "docker://team/tool.img")). reflexivity.
  - apply (proj1 (proj2 (H "shub://team/tool.simg"))); reflexivity.
  - apply (proj1 (proj2 (proj2 (H "docker://team/tool.img")))). left. reflexivity.
  - apply (proj1 (proj2 (proj2 (proj2 (H "/images/tool.simg"))))).
    + reflexivity.
    + reflexivity.
    + left. reflexivity.
  - apply (proj2 (proj2 (proj2 (proj2 (H "tool.tar"))))); reflexivity.
Defined.

(** ** Registry substitution *)

Lemma shub_not_docker (name : string) :
  strings.HasPrefix name "shub://" = true ->
  strings.HasPrefix name "docker://" = false.
Proof.
  unfold strings.HasPrefix. intros H.
  rewrite (prefix_split _ _ H). reflexivity.
Qed.

Lemma resolveContainerImage_prefixed (env : collaborators) (w : world)
    (s : singularityInfo) (pre : string) :
  e_singularityInfo (this w) = Some s ->
  pre = "docker://" \/ pre = "shub://" ->
  strings.HasPrefix (imageName s) pre = true ->
  resolveContainerImage env w = buildImageURI env pre w.
Proof.
  intros Hs [-> | ->] Hp; rewrite (resolveContainerImage_cases env w Hs).
  - now rewrite Hp.
  - now rewrite (shub_not_docker _ Hp), Hp.
Qed.

Lemma eqb_false_iff (a b : string) : String.eqb a b = false <-> a <> b.
Proof. apply String.eqb_neq. Qed.

(** C2, as the code has it.  Take a raw image name that starts with one of
    the class prefixes, and assume the lookups of the deployment store
    succeed.  If no repository is declared, or its URL is empty or one of the
    two public defaults, the resolved URI is the raw name.  Otherwise, when
    the URL parses, the resolved URI is the prefix followed by
    [path.Join(host, segment)], where [segment] is the raw name after the
    prefix, up to the next occurrence of the prefix if there is one.  This is
    [prefix + host + "/" + pathAfterPrefix] whenever the host is not empty,
    the prefix does not occur again and [host/pathAfterPrefix] is a path that
    [path.Clean] leaves as it is. *)
Theorem registry_substitution (env : collaborators) (w : world)
    (s : singularityInfo) (pre repoName : string) :
  let c := common (this w) in
  let raw := imageName s in
  let r := resolveContainerImage env w in
  e_singularityInfo (this w) = Some s ->
  pre = "docker://" \/ pre = "shub://" ->
  strings.HasPrefix raw pre = true ->
  operationImplementationRepository env (deploymentID c)
    (ImplementedInNodeTemplate (operation c)) (NodeType c) (Name (operation c))
    = (repoName, None) ->
  (repoName = "" -> fst r = Ret tt /\ resolvedURI (snd r) = Some raw) /\
  (forall repoURL,
     repoName <> "" ->
     repositoryURLFromName env (deploymentID c) repoName = (repoURL, None) ->
     (repoURL = "" \/ repoURL = DockerHubURL env \/ repoURL = SingularityHubURL env ->
        fst r = Ret tt /\ resolvedURI (snd r) = Some raw) /\
     (forall u,
        repoURL <> "" -> repoURL <> DockerHubURL env ->
        repoURL <> SingularityHubURL env ->
        url_Parse env repoURL = (u, None) ->
        fst r = Ret tt /\
        resolvedURI (snd r) = Some (pre ++ path.Join [Host u; firstSegment pre raw]) /\
        (Host u <> "" ->
         strings.Index (pathAfterPrefix pre raw) pre = None ->
         path.Clean (Host u ++ "/" ++ pathAfterPrefix pre raw) =
           Host u ++ "/" ++ pathAfterPrefix pre raw ->
         resolvedURI (snd r) = Some (substitutedURI pre (Host u) raw)))).
Proof.
  intros c raw r Hs Hpre Hp Hrepo. subst r.
  rewrite (resolveContainerImage_prefixed env w Hs Hpre Hp).
  assert (Hne : pre <> "") by (destruct Hpre as [-> | ->]; discriminate).
  unfold buildImageURI. run. fold c. rewrite Hrepo. runs Hs.
  split.
  - intros ->. cbn [String.eqb]. runs Hs. split; reflexivity.
  - intros repoURL Hname Hurl.
    apply eqb_false_iff in Hname. rewrite Hname. runs Hs.
    rewrite Hurl. runs Hs. split.
    + intros [-> | [-> | ->]].
      * destruct (String.eqb "" (DockerHubURL env) ||
                  String.eqb "" (SingularityHubURL env));
          [|rewrite String.eqb_refl; cbn [negb]]; runs Hs; split; reflexivity.
      * rewrite String.eqb_refl. cbn [orb]. runs Hs. split; reflexivity.
      * rewrite String.eqb_refl, orb_true_r. runs Hs. split; reflexivity.
    + intros u Hn0 Hn1 Hn2 Hparse.
      apply eqb_false_iff in Hn0, Hn1, Hn2. rewrite Hn0, Hn1, Hn2.
      cbn [orb negb]. runs Hs. rewrite Hparse. runs Hs.
      pose proof (@Split_second raw pre Hne Hp) as Hsp. unfold raw in Hsp.
      rewrite Hsp. runs Hs.
      unfold resolvedURI. cbn [this e_singularityInfo option_map imageURI set_imageURI].
      split; [reflexivity|]. split; [reflexivity|].
      intros Hhost Hidx Hclean.
      unfold substitutedURI, firstSegment. fold raw. rewrite Hidx.
      rewrite (Join_host_path _ Hhost), Hclean. reflexivity.
Qed.

Lemma registry_substitution_witness :
  let env := Sample.env Sample.accepted in
  let w := Sample.prepared (Sample.info "docker://team/tool:1.0" "run" "")
             (Sample.job true [] []) in
  fst (resolveContainerImage env w) = Ret tt /\
  resolvedURI (snd (resolveContainerImage env w)) =
    Some "docker://reg.example.com/team/tool:1.0".
Proof.
  intros env w.
  destruct (@registry_substitution env w _ "docker://" "myrepo" eq_refl
              (or_introl eq_refl) eq_refl eq_refl) as [_ H].
  destruct (H Sample.registryURL) as [_ H'].
  - discriminate.
  - reflexivity.
  - destruct (H' {| Scheme := "https"; Host := "reg.example.com"; Path := "" |})
      as (Hr & _ & Hu).
    + discriminate.
    + discriminate.
    + discriminate.
    + reflexivity.
    + split; [exact Hr|]. apply Hu.
      * discriminate.
      * reflexivity.
      * reflexivity.
Defined.

(** The contract's formula [prefix + host + "/" + pathAfterPrefix] does not
    describe every rewrite: [path.Join] cleans the joined path, so an empty
    path element of the raw name is dropped. *)
Lemma registry_substitution_cleans_path :
  let env := Sample.env Sample.accepted in
  let raw := "docker://team//tool:1.0" in
  let w := Sample.prepared (Sample.info raw "run" "") (Sample.job true [] []) in
  strings.HasPrefix raw "docker://" = true /\
  operationImplementationRepository env "dep" "job" "yorc.nodes.slurm.Job" runnableRun
    = ("myrepo", None) /\
  repositoryURLFromName env "dep" "myrepo" = (Sample.registryURL, None) /\
  Sample.registryURL <> "" /\
  Sample.registryURL <> DockerHubURL env /\
  Sample.registryURL <> SingularityHubURL env /\
  fst (url_Parse env Sample.registryURL) =
    {| Scheme := "https"; Host := "reg.example.com"; Path := "" |} /\
  resolvedURI (snd (resolveContainerImage env w)) =
    Some "docker://reg.example.com/team/tool:1.0" /\
  substitutedURI "docker://" "reg.example.com" raw =
    "docker://reg.example.com/team//tool:1.0" /\
  resolvedURI (snd (resolveContainerImage env w)) <>
    Some (substitutedURI "docker://" "reg.example.com" raw).
Proof.
  intros env raw w.
  repeat apply conj; try reflexivity; vm_compute; discriminate.
Qed.

(** ** Submission *)

Lemma runBatchMode_eq (env : collaborators) (opts : string) (w : world)
    (s : singularityInfo) :
  e_singularityInfo (this w) = Some s ->
  let c := common (this w) in
  let cmd := batchCmd (OperationRemoteBaseDir c)
               (batchInnerCmd (rangeExports (inputs (e_jobInfo c))) opts s) in
  runBatchMode env opts w =
  match client_RunCommand env cmd with
  | (output, Some err) => (Fail (errors_Wrap err output), afterCommand w cmd)
  | (output, None) =>
      let parsed := parseJobIDFromBatchOutput env (strings.Trim output newline) in
      (match snd parsed with Some err => Fail err | None => Ret tt end,
       withJobInfo (afterCommand w cmd) (set_ID (e_jobInfo c) (fst parsed)))
  end.
Proof.
  intros Hs c cmd. unfold runBatchMode. runs Hs. fold c. fold cmd.
  destruct (client_RunCommand env cmd) as [output [err|]]; runs Hs;
    [reflexivity|].
  destruct (parseJobIDFromBatchOutput env _) as [id [err|]]; runs Hs;
    reflexivity.
Qed.

Lemma runInteractiveMode_eq (env : collaborators) (opts : string) (w : world)
    (s : singularityInfo) :
  e_singularityInfo (this w) = Some s ->
  let c := common (this w) in
  let redirectFile := UniqueTimestampedName env "yorc_" "" in
  let cmd := strings.Trim
               (interactiveCmd (rangeExports (inputs (e_jobInfo c))) opts s
                  (execArgs (e_jobInfo c)) redirectFile) "" in
  let w1 := afterCommand (withJobInfo w (set_outputs (e_jobInfo c) [redirectFile])) cmd in
  runInteractiveMode env opts w =
  match client_RunCommand env cmd with
  | (output, Some err) => (Fail (errors_Wrap err output), w1)
  | (_, None) => (Ret tt, w1)
  end.
Proof.
  intros Hs c redirectFile cmd w1. unfold runInteractiveMode. runs Hs.
  fold c. fold redirectFile. fold cmd.
  destruct (client_RunCommand env cmd) as [output [err|]]; reflexivity.
Qed.

Lemma Trim_empty_cutset (s : string) : strings.Trim s "" = s.
Proof. destruct s; reflexivity. Qed.

Lemma HasSuffix_append (a b : string) : strings.HasSuffix (a ++ b) b = true.
Proof.
  unfold strings.HasSuffix. rewrite length_append.
  replace (String.length a + String.length b - String.length b)
    with (String.length a) by lia.
  rewrite sliceFrom_append, String.eqb_refl, andb_true_r.
  apply Nat.leb_le. lia.
Qed.

Lemma trimRight_append (a b cutset : string) :
  b <> "" -> strings.trimRight b cutset = b ->
  strings.trimRight (a ++ b) cutset = a ++ b.
Proof.
  intros Hb Ht. induction a as [|x a IH]; simpl; [exact Ht|].
  rewrite IH. destruct (a ++ b) eqn:E; [|reflexivity].
  destruct a; simpl in E; [congruence | discriminate].
Qed.

Lemma trimLeft_head (c : ascii) (s cutset : string) :
  strings.inCutset c cutset = false ->
  strings.trimLeft (String c s) cutset = String c s.
Proof. intros H. simpl. now rewrite H. Qed.

(** The exports are empty or begin with the [e] of [export]. *)
Lemma exportStatements_head (ins : list (string * string)) :
  exportStatements ins = "" \/
  exists rest, exportStatements ins = String "e" rest.
Proof.
  destruct ins as [|kv ins]; [now left|]. right.
  unfold exportStatements. cbn [map String.concat].
  destruct (map _ ins); cbn; eauto.
Qed.

Lemma interactiveCmd_ends (exports opts : string) (s : singularityInfo)
    (args : list string) (redirectFile : string) :
  exists body,
    interactiveCmd exports opts s args redirectFile =
    body ++ " > " ++ redirectFile ++ " &".
Proof.
  unfold interactiveCmd.
  exists (exports ++ "srun " ++ opts ++ " singularity " ++ command s ++ " " ++
          strings.Join args " " ++ " " ++ imageURI s ++ " " ++ exec s).
  now rewrite !append_assoc.
Qed.

Lemma TrimSpace_interactiveCmd (ins : list (string * string)) (opts : string)
    (s : singularityInfo) (args : list string) (redirectFile : string) :
  let cmd := interactiveCmd (exportStatements ins) opts s args redirectFile in
  strings.TrimSpace cmd = cmd.
Proof.
  intros cmd.
  assert (Hhead : exists c rest, cmd = String c rest /\
                    strings.inCutset c strings.asciiSpace = false).
  { unfold cmd, interactiveCmd.
    destruct (exportStatements_head ins) as [-> | [rest ->]].
    - now eexists _, _.
    - now eexists _, _. }
  assert (Htail : strings.trimRight cmd strings.asciiSpace = cmd).
  { destruct (interactiveCmd_ends (exportStatements ins) opts s args redirectFile)
      as [body E].
    fold cmd in E. rewrite E.
    replace (body ++ " > " ++ redirectFile ++ " &")
      with ((body ++ " > " ++ redirectFile) ++ " &")
      by now rewrite !append_assoc.
    apply trimRight_append; [discriminate | reflexivity]. }
  destruct Hhead as (c & rest & E & Hc).
  unfold strings.TrimSpace, strings.Trim.
  rewrite E at 1. cbn [strings.asciiSpace].
  rewrite Htail, E. now apply trimLeft_head.
Qed.

Lemma batchCmd_template (dir exports opts : string) (s : singularityInfo) :
  batchCmd dir (batchInnerCmd exports opts s) =
  "mkdir -p " ++ dir ++ ";cd " ++ dir ++ ";sbatch --wrap=" ++ dquote ++
  exports ++ "srun " ++ opts ++ " singularity " ++ command s ++ " " ++
  imageURI s ++ " " ++ exec s ++ dquote.
Proof. unfold batchCmd, batchInnerCmd. now rewrite !append_assoc. Qed.

Lemma runBatchMode_trace (env : collaborators) (opts : string) (w : world)
    (s : singularityInfo) :
  e_singularityInfo (this w) = Some s ->
  let c := common (this w) in
  trace (snd (runBatchMode env opts w)) =
  (trace w ++
   [RunCommand (batchCmd (OperationRemoteBaseDir c)
                  (batchInnerCmd (rangeExports (inputs (e_jobInfo c))) opts s))])%list.
Proof.
  intros Hs c. rewrite (runBatchMode_eq env opts w Hs). cbn zeta. fold c.
  destruct (client_RunCommand env _) as [output [err|]]; reflexivity.
Qed.

(** C4. In batch mode the command handed to the transport is
    [mkdir -p <dir>;cd <dir>;sbatch --wrap="<exports>srun <opts> singularity
    <subcommand> <imageURI> <execCommand>"], the values being inserted as they
    are.  With no input, empty options, sub-command [run], image URI
    [docker://h/img], empty in-container command and directory [/work] it is
    [mkdir -p /work;cd /work;sbatch --wrap="srun  singularity run docker://h/img "].
    The command does not depend on the extra execution arguments. *)
Theorem batch_command_template (env : collaborators) (opts : string) (w : world)
    (s : singularityInfo) :
  let c := common (this w) in
  let dir := OperationRemoteBaseDir c in
  let exports := exportStatements (inputs (e_jobInfo c)) in
  e_singularityInfo (this w) = Some s ->
  trace (snd (runBatchMode env opts w)) =
    (trace w ++
     [RunCommand
        ("mkdir -p " ++ dir ++ ";cd " ++ dir ++ ";sbatch --wrap=" ++ dquote ++
         exports ++ "srun " ++ opts ++ " singularity " ++ command s ++ " " ++
         imageURI s ++ " " ++ exec s ++ dquote)])%list /\
  (inputs (e_jobInfo c) = [] -> opts = "" -> command s = "run" ->
   imageURI s = "docker://h/img" -> exec s = "" -> dir = "/work" ->
   trace (snd (runBatchMode env opts w)) =
     (trace w ++
      [RunCommand
         ("mkdir -p /work;cd /work;sbatch --wrap=" ++ dquote ++
          "srun  singularity run docker://h/img " ++ dquote)])%list) /\
  (forall args,
     commandsRun (trace (snd (runBatchMode env opts
                                (withJobInfo w (set_execArgs (e_jobInfo c) args))))) =
     commandsRun (trace (snd (runBatchMode env opts w)))).
Proof.
  intros c dir exports Hs.
  assert (Ht := runBatchMode_trace env opts w Hs). cbn zeta in Ht. fold c in Ht.
  rewrite rangeExports_statements, batchCmd_template in Ht.
  fold dir in Ht. fold exports in Ht.
  split; [exact Ht|]. split.
  - intros Hi Ho Hc Hu He Hd. rewrite Ht. unfold exports.
    rewrite Hi, Ho, Hc, Hu, He, Hd. reflexivity.
  - intros args.
    rewrite (@runBatchMode_trace env opts
               (withJobInfo w (set_execArgs (e_jobInfo c) args)) s Hs).
    rewrite (runBatchMode_trace env opts w Hs).
    reflexivity.
Qed.

Lemma batch_command_template_witness :
  let env := Sample.env Sample.accepted in
  let w := Sample.prepared (Sample.info "docker://h/img" "run" "")
             (Sample.job true [] ["--verbose"]) in
  trace (snd (runBatchMode env "" w)) =
    [RunCommand ("mkdir -p /work;cd /work;sbatch --wrap=" ++ dquote ++
                 "srun  singularity run docker://h/img " ++ dquote)].
Proof.
  intros env w.
  apply (proj1 (proj2 (@batch_command_template env "" w _ eq_refl)));
    reflexivity.
Defined.

(** C5. In interactive mode the command handed to the transport is
    [<exports>srun <opts> singularity <subcommand> <extraArgs> <imageURI>
    <execCommand> > <redirectFile> &], the extra arguments being joined by
    single spaces and [redirectFile] being the name just generated.  It ends
    with the redirection and the ampersand, and it has no white space at
    either end: it is its own [TrimSpace]. *)
Theorem interactive_command_template (env : collaborators) (opts : string)
    (w : world) (s : singularityInfo) :
  let c := common (this w) in
  let exports := exportStatements (inputs (e_jobInfo c)) in
  let redirectFile := UniqueTimestampedName env "yorc_" "" in
  let cmd := exports ++ "srun " ++ opts ++ " singularity " ++ command s ++ " " ++
             strings.Join (execArgs (e_jobInfo c)) " " ++ " " ++ imageURI s ++
             " " ++ exec s ++ " > " ++ redirectFile ++ " &" in
  e_singularityInfo (this w) = Some s ->
  trace (snd (runInteractiveMode env opts w)) = (trace w ++ [RunCommand cmd])%list /\
  strings.HasSuffix cmd (" > " ++ redirectFile ++ " &") = true /\
  strings.TrimSpace cmd = cmd.
Proof.
  intros c exports redirectFile cmd Hs.
  assert (E : cmd = interactiveCmd exports opts s (execArgs (e_jobInfo c)) redirectFile)
    by reflexivity.
  split; [|split].
  - rewrite (runInteractiveMode_eq env opts w Hs). cbn zeta. fold c.
    rewrite Trim_empty_cutset, rangeExports_statements.
    fold exports. fold redirectFile. rewrite <- E.
    destruct (client_RunCommand env cmd) as [output [err|]]; reflexivity.
  - destruct (interactiveCmd_ends exports opts s (execArgs (e_jobInfo c)) redirectFile)
      as [body Hb].
    rewrite E, Hb. apply HasSuffix_append.
  - rewrite E. apply TrimSpace_interactiveCmd.
Qed.

Lemma interactive_command_template_witness :
  let env := Sample.env Sample.accepted in
  let w := Sample.prepared (Sample.info "docker://h/img" "exec" "ls -l")
             (Sample.job false [("A", "1"); ("B", "2")] ["--nv"; "--contain"]) in
  let cmd := "export A=1;export B=2;srun --mem=1G singularity exec --nv --contain docker://h/img ls -l > yorc_20181105-0001 &" in
  trace (snd (runInteractiveMode env "--mem=1G" w)) = [RunCommand cmd] /\
  strings.HasSuffix cmd " > yorc_20181105-0001 &" = true /\
  strings.TrimSpace cmd = cmd.
Proof.
  intros env w cmd.
  apply (@interactive_command_template env "--mem=1G" w _ eq_refl).
Defined.

(** ** The run-command stage *)

Lemma runJobCommand_batch (env : collaborators) (w : world) :
  batchMode (e_jobInfo (common (this w))) = true ->
  runJobCommand env w =
  runBatchMode env (fillJobCommandOpts env (common (this w))) (batchReady env w).
Proof.
  intros Hb. unfold runJobCommand. rewrite bind_eq. unfold getThis at 1.
  rewrite bind_eq. unfold setThis at 1. rewrite bind_eq. unfold getThis at 1.
  cbn [this common set_common e_jobInfo set_OperationRemoteExecDir].
  rewrite Hb. rewrite bind_eq. reflexivity.
Qed.

Lemma runJobCommand_interactive (env : collaborators) (w : world) :
  batchMode (e_jobInfo (common (this w))) = false ->
  runJobCommand env w =
  (runInteractiveMode env (fillJobCommandOpts env (common (this w))) ;;;
   onCommon (retrieveJobID env)) (entered w).
Proof.
  intros Hb. unfold runJobCommand. rewrite bind_eq. unfold getThis at 1.
  rewrite bind_eq. unfold setThis at 1. rewrite bind_eq. unfold getThis at 1.
  cbn [this common set_common e_jobInfo set_OperationRemoteExecDir].
  rewrite Hb. reflexivity.
Qed.

Lemma onCommon_trace (f : executionCommon -> executionCommon * option error)
    (w : world) :
  trace (snd (onCommon f w)) = trace w /\
  forall reason, fst (onCommon f w) <> Panic reason.
Proof.
  unfold onCommon. run. destruct (f (common (this w))) as [c [err|]]; run;
    split; try reflexivity; discriminate.
Qed.

(** With the container information in place, [runJobCommand] hands exactly
    one command to the transport, in either mode and whatever the reply,
    and does not panic. *)
Lemma runJobCommand_one_call (env : collaborators) (w : world)
    (s : singularityInfo) :
  e_singularityInfo (this w) = Some s ->
  (exists cmd,
     commandsRun (trace (snd (runJobCommand env w))) =
     (commandsRun (trace w) ++ [cmd])%list) /\
  forall reason, fst (runJobCommand env w) <> Panic reason.
Proof.
  intros Hs.
  destruct (batchMode (e_jobInfo (common (this w)))) eqn:Hb.
  - rewrite (runJobCommand_batch env w Hb).
    assert (Hs' : e_singularityInfo (this (batchReady env w)) = Some s) by exact Hs.
    split.
    + rewrite (runBatchMode_trace env _ _ Hs'). cbn zeta.
      rewrite commandsRun_app. now eexists.
    + intros reason. rewrite (runBatchMode_eq env _ _ Hs'). cbn zeta.
      destruct (client_RunCommand env _) as [output [err|]]; [discriminate|].
      cbn [fst]. destruct (snd _); discriminate.
  - rewrite (runJobCommand_interactive env w Hb). rewrite bind_eq.
    assert (Hs' : e_singularityInfo (this (entered w)) = Some s) by exact Hs.
    rewrite (runInteractiveMode_eq env _ _ Hs'). cbn zeta.
    destruct (client_RunCommand env _) as [output [err|]].
    + split; [|discriminate].
      cbn [snd afterCommand trace]. rewrite commandsRun_app. now eexists.
    + match goal with |- context [onCommon ?f ?w1] =>
        destruct (onCommon_trace f w1) as [Ht Hp] end.
      split; [|exact Hp]. rewrite Ht.
      cbn [afterCommand trace]. rewrite commandsRun_app. now eexists.
Qed.

Lemma buildSingularityInfo_ok (env : collaborators) (w : world) :
  fst (buildSingularityInfo env w) = Ret tt ->
  let w' := snd (buildSingularityInfo env w) in
  common (this w') = common (this w) /\
  (exists s, e_singularityInfo (this w') = Some s) /\
  commandsRun (trace w') = commandsRun (trace w).
Proof.
  intros Hok. cbn zeta.
  destruct (string_dec (Primary (common (this w))) "") as [He|Hne].
  - rewrite (buildSingularityInfo_missing env w He) in Hok. discriminate.
  - rewrite (buildSingularityInfo_present env w Hne).
    set (w1 := {| this := _; trace := _ |}).
    destruct (@resolveContainerImage_frame env w1 (scanned (common (this w))) eq_refl)
      as (Hc & (s' & Hs' & _) & Ht).
    split; [exact Hc|]. split; [now exists s' | exact Ht].
Qed.

Lemma buildSingularityInfo_commands (env : collaborators) (w : world) :
  commandsRun (trace (snd (buildSingularityInfo env w))) = commandsRun (trace w).
Proof.
  destruct (string_dec (Primary (common (this w))) "") as [He|Hne].
  - now rewrite (buildSingularityInfo_missing env w He).
  - rewrite (buildSingularityInfo_present env w Hne).
    set (w1 := {| this := _; trace := _ |}).
    now destruct (@resolveContainerImage_frame env w1 (scanned (common (this w))) eq_refl)
      as (_ & _ & Ht).
Qed.

(** A dispatch whose job information is built goes on with the container
    information. *)
Lemma executeAsync_container (env : collaborators) (w : world)
    (c1 : executionCommon) :
  let w1 := {| this := set_common (this w) c1; trace := trace w |} in
  strings.ToLower (unicodeLower env) (Name (operation (common (this w)))) = runnableRun ->
  buildJobInfo env (common (this w)) = (c1, None) ->
  executeAsync env w =
  match buildSingularityInfo env w1 with
  | (Ret _, w2) =>
      (wrapped (runJobCommand env) "failed to run command" ;;;
       e <- getThis ;;
       ret (buildJobMonitoringAction env (common e),
            monitoringTimeInterval (e_jobInfo (common e)))) w2
  | (Fail err, w2) =>
      (Fail (errors_Wrap err "failed to build singularity information"), w2)
  | (Panic reason, w2) => (Panic reason, w2)
  end.
Proof.
  intros w1 Hop Hjob.
  rewrite (executeAsync_runnable _ _ Hop).
  rewrite bind_eq, (buildJobInfo_stage _ _ _ Hjob). fold w1.
  rewrite bind_eq. unfold wrapped at 1.
  destruct (buildSingularityInfo env w1) as [[[]|err|reason] w2]; reflexivity.
Qed.

(** A dispatch whose first two stages succeed ends as its run-command stage
    does. *)
Lemma executeAsync_submits (env : collaborators) (w : world)
    (c1 : executionCommon) :
  let w1 := {| this := set_common (this w) c1; trace := trace w |} in
  let w2 := snd (buildSingularityInfo env w1) in
  strings.ToLower (unicodeLower env) (Name (operation (common (this w)))) = runnableRun ->
  buildJobInfo env (common (this w)) = (c1, None) ->
  fst (buildSingularityInfo env w1) = Ret tt ->
  executeAsync env w =
  match runJobCommand env w2 with
  | (Ret _, w3) =>
      (Ret (buildJobMonitoringAction env (common (this w3)),
            monitoringTimeInterval (e_jobInfo (common (this w3)))), w3)
  | (Fail err, w3) => (Fail (errors_Wrap err "failed to run command"), w3)
  | (Panic reason, w3) => (Panic reason, w3)
  end.
Proof.
  intros w1 w2 Hop Hjob Hok.
  rewrite (executeAsync_runnable _ _ Hop).
  rewrite bind_eq, (buildJobInfo_stage _ _ _ Hjob). fold w1.
  rewrite bind_eq. unfold wrapped at 1.
  destruct (buildSingularityInfo env w1) as [o w2'] eqn:E.
  cbn [fst] in Hok. subst o. subst w2. cbn [snd].
  rewrite bind_eq. unfold wrapped at 1.
  destruct (runJobCommand env w2') as [[[]|err|reason] w3]; reflexivity.
Qed.

(** ** The scheduler's acknowledgment *)

Lemma runBatchMode_acknowledged (env : collaborators) (opts : string) (w : world)
    (s : singularityInfo) (out : string) :
  parseJobIDFromBatchOutput env = parseJobIDFromBatchOutput_spec ->
  e_singularityInfo (this w) = Some s ->
  (forall cmd, client_RunCommand env cmd = (out, None)) ->
  let r := runBatchMode env opts w in
  (exists cmd, trace (snd r) = (trace w ++ [RunCommand cmd])%list) /\
  match finalToken (strings.Trim out newline) with
  | Some id => fst r = Ret tt /\ ID (e_jobInfo (common (this (snd r)))) = id
  | None => fst r = Fail JobIDParseFailure
  end.
Proof.
  intros Hparser Hs Hreply. cbn zeta.
  rewrite (runBatchMode_eq env opts w Hs). cbn zeta.
  rewrite Hreply, Hparser. unfold parseJobIDFromBatchOutput_spec.
  split; [now eexists|].
  destruct (finalToken (strings.Trim out newline)) as [id|]; cbn; auto.
Qed.

(** C6. In a batch dispatch that reaches the submission and whose command
    the transport accepts, the job identifier is the final white-space
    delimited token of the output once its surrounding newlines are trimmed:
    the dispatch succeeds and stores it.  When the output has no token the
    dispatch fails with [JobIDParseFailure], wrapped by the run-command
    stage.  Either way exactly one command has been run.  On
    [Submitted batch job 4821] the identifier is [4821]. *)
Theorem batch_job_id_is_final_token (env : collaborators) (w : world)
    (c1 : executionCommon) (out : string) :
  let w1 := {| this := set_common (this w) c1; trace := trace w |} in
  let r := executeAsync env w in
  parseJobIDFromBatchOutput env = parseJobIDFromBatchOutput_spec ->
  strings.ToLower (unicodeLower env) (Name (operation (common (this w)))) = runnableRun ->
  buildJobInfo env (common (this w)) = (c1, None) ->
  fst (buildSingularityInfo env w1) = Ret tt ->
  batchMode (e_jobInfo c1) = true ->
  (forall cmd, client_RunCommand env cmd = (out, None)) ->
  transportCalls (trace (snd r)) = transportCalls (trace w) + 1 /\
  match finalToken (strings.Trim out newline) with
  | Some id =>
      (exists a, fst r = Ret a) /\ ID (e_jobInfo (common (this (snd r)))) = id
  | None => fst r = Fail (errors_Wrap JobIDParseFailure "failed to run command")
  end /\
  parseJobIDFromBatchOutput_spec "Submitted batch job 4821" = ("4821", None).
Proof.
  intros w1 r Hparser Hop Hjob Hok Hbatch Hreply. subst r.
  rewrite (executeAsync_submits env w Hop Hjob Hok). fold w1.
  destruct (buildSingularityInfo_ok env w1 Hok) as (Hc & (s & Hs) & Ht).
  cbn zeta in Hc, Hs, Ht.
  set (w2 := snd (buildSingularityInfo env w1)) in *.
  assert (Hb2 : batchMode (e_jobInfo (common (this w2))) = true)
    by (rewrite Hc; exact Hbatch).
  rewrite (runJobCommand_batch env w2 Hb2).
  assert (Hs' : e_singularityInfo (this (batchReady env w2)) = Some s) by exact Hs.
  destruct (@runBatchMode_acknowledged env
              (fillJobCommandOpts env (common (this w2))) (batchReady env w2)
              s out Hparser Hs' Hreply) as ([cmd Htr] & Hres).
  cbn zeta in Htr, Hres.
  destruct (runBatchMode env _ (batchReady env w2)) as [o w3].
  cbn [fst snd] in Htr, Hres.
  assert (Hcalls : transportCalls (trace w3) = transportCalls (trace w) + 1).
  { rewrite Htr, transportCalls_app. unfold transportCalls at 1.
    cbn [batchReady withJobInfo entered trace]. rewrite Ht. reflexivity. }
  split; [|split; [|reflexivity]].
  - destruct o as [[]|err|reason]; exact Hcalls.
  - destruct (finalToken (strings.Trim out newline)) as [id|].
    + destruct Hres as [-> Hid]. cbn [fst snd]. split; [now eexists | exact Hid].
    + rewrite Hres. reflexivity.
Qed.

Lemma batch_job_id_is_final_token_witness :
  let w := Sample.request "Tosca.Interfaces.Node.Lifecycle.Runnable.Run"
             "docker://team/tool:1.0" [] (Sample.job true [] []) in
  let accepted := executeAsync (Sample.env Sample.accepted) w in
  let silent := executeAsync (Sample.env (newline, None)) w in
  (transportCalls (trace (snd accepted)) = 1 /\
   (exists a, fst accepted = Ret a) /\
   ID (e_jobInfo (common (this (snd accepted)))) = "4821") /\
  (transportCalls (trace (snd silent)) = 1 /\
   fst silent = Fail (errors_Wrap JobIDParseFailure "failed to run command")).
Proof.
  intros w accepted silent. split.
  - destruct (@batch_job_id_is_final_token (Sample.env Sample.accepted) w
                (common (this w)) (fst Sample.accepted))
      as (H1 & H2 & _); try reflexivity.
    split; [exact H1 | exact H2].
  - destruct (@batch_job_id_is_final_token (Sample.env (newline, None)) w
                (common (this w)) newline)
      as (H1 & H2 & _); try reflexivity.
    split; [exact H1 | exact H2].
Defined.

(** ** Outputs of an interactive submission *)

Lemma runInteractiveMode_outputs (env : collaborators) (opts : string)
    (w : world) (s : singularityInfo) :
  e_singularityInfo (this w) = Some s ->
  outputs (e_jobInfo (common (this (snd (runInteractiveMode env opts w))))) =
  [UniqueTimestampedName env "yorc_" ""].
Proof.
  intros Hs. rewrite (runInteractiveMode_eq env opts w Hs). cbn zeta.
  destruct (client_RunCommand env _) as [output [err|]]; reflexivity.
Qed.

(** C10. In interactive mode the outputs of the job are the single redirect
    file just generated, whatever the transport answers: the assignment does
    not depend on the reply.  In a dispatch that reaches the submission and
    whose command the transport refuses, the dispatch fails with the
    transport error wrapped with the output, one command having been run,
    and the job information still holds the redirect file as its only
    output. *)
Theorem interactive_outputs_survive_failure (env : collaborators) :
  (forall opts w s,
     e_singularityInfo (this w) = Some s ->
     outputs (e_jobInfo (common (this (snd (runInteractiveMode env opts w))))) =
     [UniqueTimestampedName env "yorc_" ""]) /\
  (forall w c1 out err,
     let w1 := {| this := set_common (this w) c1; trace := trace w |} in
     let r := executeAsync env w in
     strings.ToLower (unicodeLower env) (Name (operation (common (this w)))) = runnableRun ->
     buildJobInfo env (common (this w)) = (c1, None) ->
     fst (buildSingularityInfo env w1) = Ret tt ->
     batchMode (e_jobInfo c1) = false ->
     (forall cmd, client_RunCommand env cmd = (out, Some err)) ->
     fst r = Fail (errors_Wrap (errors_Wrap err out) "failed to run command") /\
     CommandExecutionFailure (errors_Wrap err out) /\
     transportCalls (trace (snd r)) = transportCalls (trace w) + 1 /\
     outputs (e_jobInfo (common (this (snd r)))) =
     [UniqueTimestampedName env "yorc_" ""]).
Proof.
  split; [exact (runInteractiveMode_outputs env)|].
  intros w c1 out err w1 r Hop Hjob Hok Hmode Hreply. subst r.
  rewrite (executeAsync_submits env w Hop Hjob Hok). fold w1.
  destruct (buildSingularityInfo_ok env w1 Hok) as (Hc & (s & Hs) & Ht).
  cbn zeta in Hc, Hs, Ht.
  set (w2 := snd (buildSingularityInfo env w1)) in *.
  assert (Hm2 : batchMode (e_jobInfo (common (this w2))) = false)
    by (rewrite Hc; exact Hmode).
  rewrite (runJobCommand_interactive env w2 Hm2), bind_eq.
  assert (Hs' : e_singularityInfo (this (entered w2)) = Some s) by exact Hs.
  rewrite (runInteractiveMode_eq env _ _ Hs'). cbn zeta. rewrite Hreply.
  cbn [fst snd]. repeat split.
  - now exists err, out.
  - cbn [afterCommand withJobInfo entered trace]. rewrite transportCalls_app.
    unfold transportCalls at 1. rewrite Ht. reflexivity.
Qed.

Lemma interactive_outputs_survive_failure_witness :
  let env := Sample.env Sample.refused in
  let w := Sample.request runnableRun "docker://team/tool:1.0" []
             (Sample.job false [] []) in
  let r := executeAsync env w in
  outputs (e_jobInfo (common (this (snd
    (runInteractiveMode env ""
       (Sample.prepared (Sample.info "tool.simg" "run" "") (Sample.job false [] []))))))) =
    ["yorc_20181105-0001"] /\
  fst r = Fail (errors_Wrap
                  (errors_Wrap (errors_New "exit status 1")
                     "sbatch: error: invalid partition")
                  "failed to run command") /\
  transportCalls (trace (snd r)) = 1 /\
  outputs (e_jobInfo (common (this (snd r)))) = ["yorc_20181105-0001"].
Proof.
  intros env w r. split.
  - apply (proj1 (interactive_outputs_survive_failure env) ""
             (Sample.prepared (Sample.info "tool.simg" "run" "")
                (Sample.job false [] []))
             (Sample.info "tool.simg" "run" "")).
    reflexivity.
  - destruct (proj2 (interactive_outputs_survive_failure env) w (common (this w))
                "sbatch: error: invalid partition" (errors_New "exit status 1"))
      as (H1 & _ & H3 & H4); try reflexivity.
    split; [exact H1 | split; [exact H3 | exact H4]].
Defined.

(** ** Transport calls per dispatch *)

Lemma stage_message_job :
  String.eqb "failed to build job information" "failed to run command" = false.
Proof. reflexivity. Qed.

Lemma stage_message_singularity :
  String.eqb "failed to build singularity information" "failed to run command" = false.
Proof. reflexivity. Qed.

(** Counting only the requests that the methods of this file send: one
    command when the dispatch succeeds or fails in its run-command stage,
    none when it fails before that stage. *)
Lemma own_transport_calls (env : collaborators) (w : world) :
  let r := executeAsync env w in
  transportCalls (trace (snd r)) =
  transportCalls (trace w) + (if submitted (fst r) then 1 else 0).
Proof.
  cbn zeta.
  destruct (string_dec (strings.ToLower (unicodeLower env)
                          (Name (operation (common (this w))))) runnableRun)
    as [Hop|Hop].
  2: { rewrite (executeAsync_other env w Hop). cbn [fst snd submitted].
       now rewrite Nat.add_0_r. }
  destruct (buildJobInfo env (common (this w))) as [c1 [err|]] eqn:Hjob.
  { rewrite (executeAsync_runnable _ _ Hop), bind_eq,
      (buildJobInfo_stage_fails _ _ _ Hjob).
    cbn [fst snd submitted trace]. rewrite stage_message_job.
    now rewrite Nat.add_0_r. }
  set (w1 := {| this := set_common (this w) c1; trace := trace w |}).
  pose proof (buildSingularityInfo_commands env w1) as Ht.
  destruct (fst (buildSingularityInfo env w1)) as [[]|err|reason] eqn:Hok.
  - rewrite (executeAsync_submits env w Hop Hjob Hok). fold w1.
    destruct (buildSingularityInfo_ok env w1 Hok) as (_ & (s & Hs) & _).
    cbn zeta in Hs.
    destruct (runJobCommand_one_call env _ Hs) as ([cmd Hcmd] & Hpanic).
    destruct (runJobCommand env (snd (buildSingularityInfo env w1)))
      as [[[]|e|reason] w3]; cbn [fst snd submitted] in *.
    + unfold transportCalls. rewrite Hcmd, Ht, length_app. reflexivity.
    + unfold transportCalls. rewrite String.eqb_refl, Hcmd, Ht, length_app.
      reflexivity.
    + now elim (Hpanic reason).
  - rewrite (executeAsync_container env w Hop Hjob). fold w1.
    destruct (buildSingularityInfo env w1) as [o w2].
    cbn [fst snd] in *. subst o. cbn [fst snd submitted].
    rewrite stage_message_singularity.
    unfold transportCalls. rewrite Ht. now rewrite Nat.add_0_r.
  - rewrite (executeAsync_container env w Hop Hjob). fold w1.
    destruct (buildSingularityInfo env w1) as [o w2].
    cbn [fst snd] in *. subst o. cbn [fst snd submitted].
    unfold transportCalls. rewrite Ht. now rewrite Nat.add_0_r.
Qed.

(** ** Every path through [buildImageURI] *)

Lemma buildImageURI_paths (env : collaborators) (pre : string) (w : world)
    (s : singularityInfo) :
  e_singularityInfo (this w) = Some s ->
  pre <> "" ->
  strings.HasPrefix (imageName s) pre = true ->
  imageResolution env pre s w (buildImageURI env pre w).
Proof.
  intros Hs Hne Hp. unfold buildImageURI. run.
  destruct (operationImplementationRepository env _ _ _ _)
    as [repoName [err|]] eqn:Hrepo; runs Hs.
  { now apply RepositoryLookupFails with (repoName := repoName). }
  destruct (String.eqb repoName "") eqn:Hname; runs Hs.
  { apply String.eqb_eq in Hname. subst repoName. now apply NoRepository. }
  apply eqb_false_iff in Hname.
  destruct (repositoryURLFromName env _ _) as [repoURL [err|]] eqn:Hurl;
    runs Hs; rewrite <- ?app_assoc; cbn [app].
  { now apply URLLookupFails with (repoURL := repoURL). }
  destruct (String.eqb repoURL (DockerHubURL env)) eqn:Hd; cbn [orb]; runs Hs.
  { apply String.eqb_eq in Hd.
    apply PublicOrNoURL with (repoURL := repoURL); auto. }
  destruct (String.eqb repoURL (SingularityHubURL env)) eqn:Hh; runs Hs.
  { apply String.eqb_eq in Hh.
    apply PublicOrNoURL with (repoURL := repoURL); auto. }
  destruct (String.eqb repoURL "") eqn:He; cbn [negb]; runs Hs.
  { apply String.eqb_eq in He.
    apply PublicOrNoURL with (repoURL := repoURL); auto. }
  apply eqb_false_iff in Hd, Hh, He.
  destruct (url_Parse env repoURL) as [u [err|]] eqn:Hparse; runs Hs.
  { now apply MalformedURL with (repoURL := repoURL) (u := u). }
  rewrite (@Split_second (imageName s) pre Hne Hp). runs Hs.
  now apply PrivateRegistry with (repoURL := repoURL).
Qed.

Lemma classPrefix_some (name pre : string) :
  classPrefix name = Some pre ->
  (pre = "docker://" \/ pre = "shub://") /\ pre <> "" /\
  strings.HasPrefix name pre = true.
Proof.
  unfold classPrefix.
  destruct (strings.HasPrefix name "docker://") eqn:Hd.
  - intros [= <-]. repeat split; [now left | discriminate | exact Hd].
  - destruct (strings.HasPrefix name "shub://") eqn:Hh; [|discriminate].
    intros [= <-]. repeat split; [now right | discriminate | exact Hh].
Qed.

Lemma classPrefix_none (name : string) :
  classPrefix name = None ->
  strings.HasPrefix name "docker://" = false /\
  strings.HasPrefix name "shub://" = false.
Proof.
  unfold classPrefix.
  destruct (strings.HasPrefix name "docker://"); [discriminate|].
  destruct (strings.HasPrefix name "shub://"); [discriminate|]. now split.
Qed.

Lemma scanned_imageName (c : executionCommon) : imageName (scanned c) = Primary c.
Proof. exact (proj1 (scanned_choice c)). Qed.

Lemma scanned_imageURI (c : executionCommon) : imageURI (scanned c) = "".
Proof.
  unfold scanned.
  destruct (scanInput_loop (EnvInputs c) zeroSingularityInfo) as (_ & Hu & _).
  cbn zeta in Hu.
  destruct (String.eqb _ ""); cbn [imageURI set_command set_imageName]; exact Hu.
Qed.

(** [buildSingularityInfo] on a prefixed image name follows one of the paths
    of [buildImageURI]. *)
Lemma buildSingularityInfo_prefixed (env : collaborators) (w : world)
    (pre : string) :
  let c := common (this w) in
  Primary c <> "" ->
  classPrefix (Primary c) = Some pre ->
  imageResolution env pre (scanned c) (scannedWorld w)
    (buildSingularityInfo env w).
Proof.
  intros c Himg Hclass.
  destruct (classPrefix_some _ Hclass) as (Hpre & Hne & Hp).
  rewrite (buildSingularityInfo_present env w Himg).
  change {| this := _; trace := trace w |} with (scannedWorld w).
  assert (Hs : e_singularityInfo (this (scannedWorld w)) = Some (scanned c))
    by reflexivity.
  rewrite <- (scanned_imageName c) in Hp.
  rewrite (resolveContainerImage_prefixed env _ Hs Hpre Hp).
  now apply buildImageURI_paths.
Qed.

(** [buildSingularityInfo] on a name without class prefix. *)
Lemma buildSingularityInfo_unprefixed (env : collaborators) (w : world) :
  let c := common (this w) in
  Primary c <> "" ->
  classPrefix (Primary c) = None ->
  buildSingularityInfo env w =
  if strings.HasSuffix (Primary c) ".simg" || strings.HasSuffix (Primary c) ".img"
  then (Ret tt, resolvedTo (scannedWorld w) (scanned c) (Primary c) [])
  else (Fail (unresolvable (Primary c)), scannedWorld w).
Proof.
  intros c Himg Hclass.
  destruct (classPrefix_none _ Hclass) as (Hd & Hh).
  rewrite (buildSingularityInfo_present env w Himg).
  change {| this := _; trace := trace w |} with (scannedWorld w).
  assert (Hs : e_singularityInfo (this (scannedWorld w)) = Some (scanned c))
    by reflexivity.
  rewrite (resolveContainerImage_cases env _ Hs), (scanned_imageName c).
  fold c. rewrite Hd, Hh.
  destruct (strings.HasSuffix (Primary c) ".simg" ||
            strings.HasSuffix (Primary c) ".img"); [|reflexivity].
  unfold resolvedTo. cbn [scannedWorld trace]. now rewrite app_nil_r.
Qed.

(** ** Failures while building the container information *)

Lemma resolvedURI_asked (w : world) (evs : list event) :
  resolvedURI (asked (scannedWorld w) evs) = Some "".
Proof.
  unfold resolvedURI. cbn [asked scannedWorld this e_singularityInfo
                            set_singularityInfo option_map].
  now rewrite scanned_imageURI.
Qed.

(** X1. When the artifact names an image, the resolved URI of the stored
    container information is set exactly when [buildSingularityInfo]
    succeeds: after a success it is not empty, it starts with the class
    prefix of the image name when there is one and is the image name itself
    otherwise; after a failure it is still empty. *)
Theorem resolved_uri_set_only_on_success (env : collaborators) (w : world) :
  let c := common (this w) in
  let r := buildSingularityInfo env w in
  Primary c <> "" ->
  match fst r with
  | Ret _ =>
      exists uri,
        resolvedURI (snd r) = Some uri /\ uri <> "" /\
        match classPrefix (Primary c) with
        | Some pre => strings.HasPrefix uri pre = true
        | None => uri = Primary c
        end
  | _ => resolvedURI (snd r) = Some ""
  end.
Proof.
  intros c r Himg. subst r.
  destruct (classPrefix (Primary c)) as [pre|] eqn:Hclass.
  - destruct (classPrefix_some _ Hclass) as (_ & Hne & Hp).
    pose proof (buildSingularityInfo_prefixed env w Himg Hclass) as H.
    fold c in H.
    remember (buildSingularityInfo env w) as r eqn:Er. clear Er.
    destruct H; cbn [fst snd]; try apply resolvedURI_asked.
    + exists (imageName (scanned c)). rewrite scanned_imageName.
      repeat split; assumption.
    + exists (imageName (scanned c)). rewrite scanned_imageName.
      repeat split; assumption.
    + eexists. split; [reflexivity|]. split.
      * destruct pre; [congruence | discriminate].
      * apply prefix_append.
  - rewrite (buildSingularityInfo_unprefixed env w Himg Hclass). fold c.
    destruct (strings.HasSuffix (Primary c) ".simg" ||
              strings.HasSuffix (Primary c) ".img"); cbn [fst snd].
    + exists (Primary c). repeat split. exact Himg.
    + apply (resolvedURI_asked w []).
Qed.

Lemma resolved_uri_set_only_on_success_witness :
  let w name := Sample.request runnableRun name [] (Sample.job true [] []) in
  (exists uri,
     resolvedURI (snd (buildSingularityInfo (Sample.env Sample.accepted)
                         (w "shub://team/tool"))) = Some uri /\
     uri <> "" /\ strings.HasPrefix uri "shub://" = true) /\
  resolvedURI (snd (buildSingularityInfo (Sample.env Sample.accepted)
                      (w "tool.tar"))) = Some "".
Proof.
  intros w. split.
  - apply (@resolved_uri_set_only_on_success (Sample.env Sample.accepted)
             (w "shub://team/tool")).
    discriminate.
  - apply (@resolved_uri_set_only_on_success (Sample.env Sample.accepted)
             (w "tool.tar")).
    discriminate.
Defined.

(** X2. When [buildSingularityInfo] fails on a non-empty image name, its
    error is the unresolvable-image error of a name without class prefix,
    nothing having been asked, or it is, as returned, the error of the
    repository lookup, of the URL lookup or of [url.Parse]; the trace then
    holds the store requests made up to that point and nothing else. *)
Theorem container_information_failure_causes (env : collaborators) (w : world)
    (err : error) :
  let c := common (this w) in
  let r := buildSingularityInfo env w in
  Primary c <> "" ->
  fst r = Fail err ->
  (classPrefix (Primary c) = None /\ err = unresolvable (Primary c) /\
   trace (snd r) = trace w) \/
  (exists repoName,
     repositoryOf env c = (repoName, Some err) /\
     trace (snd r) = (trace w ++ [repositoryQuery c])%list) \/
  (exists repoName repoURL,
     repositoryOf env c = (repoName, None) /\
     repositoryURLFromName env (deploymentID c) repoName = (repoURL, Some err) /\
     trace (snd r) = (trace w ++ [repositoryQuery c; urlQuery c repoName])%list) \/
  (exists repoName repoURL u,
     repositoryOf env c = (repoName, None) /\
     repositoryURLFromName env (deploymentID c) repoName = (repoURL, None) /\
     url_Parse env repoURL = (u, Some err) /\
     trace (snd r) = (trace w ++ [repositoryQuery c; urlQuery c repoName])%list).
Proof.
  intros c r Himg. subst r.
  destruct (classPrefix (Primary c)) as [pre|] eqn:Hclass.
  - pose proof (buildSingularityInfo_prefixed env w Himg Hclass) as H.
    fold c in H.
    remember (buildSingularityInfo env w) as r eqn:Er. clear Er.
    destruct H; cbn [fst snd]; intros [= <-] || intros [=].
    + right. left. now exists repoName.
    + right. right. left. now exists repoName, repoURL.
    + right. right. right. now exists repoName, repoURL, u.
  - rewrite (buildSingularityInfo_unprefixed env w Himg Hclass). fold c.
    destruct (strings.HasSuffix (Primary c) ".simg" ||
              strings.HasSuffix (Primary c) ".img"); cbn [fst snd];
      [discriminate|].
    intros [= <-]. left. repeat split.
Qed.

Lemma container_information_failure_causes_witness :
  let env := Scenario.env ("myrepo", None) ("", Some Scenario.storeDown)
               Sample.accepted None None in
  let w := Sample.request runnableRun "docker://team/tool" []
             (Sample.job true [] []) in
  exists repoName repoURL,
    repositoryOf env (common (this w)) = (repoName, None) /\
    repositoryURLFromName env "dep" repoName = (repoURL, Some Scenario.storeDown) /\
    trace (snd (buildSingularityInfo env w)) =
      [repositoryQuery (common (this w)); urlQuery (common (this w)) repoName].
Proof.
  intros env w.
  destruct (@container_information_failure_causes env w Scenario.storeDown)
    as [(H & _) | [(n & H & _) | [H | (n & u & x & _ & H & _)]]].
  - discriminate.
  - reflexivity.
  - discriminate H.
  - discriminate H.
  - exact H.
  - discriminate H.
Defined.

(** Closes a path of [buildImageURI] against the known answers of the
    store for the repository [n] and the URL [url]. *)
Ltac same_answers n url :=
  try congruence;
  match goal with
  | H : repositoryOf _ _ = (?m, None) |- _ =>
      assert (m = n) by congruence; subst;
      try congruence;
      match goal with
      | H' : repositoryURLFromName _ _ _ = (?v, None) |- _ =>
          assert (v = url) by congruence; subst; (congruence || tauto)
      end
  end.

(** X3. For an image name with a class prefix, an error of the repository
    lookup, of the URL lookup of a declared repository, or of [url.Parse] on
    a URL that is neither empty nor a public default, makes
    [buildSingularityInfo] fail with that very error, unwrapped; the
    container information stays as scanned, the URL lookup is not made after
    a failed repository lookup, and nothing is sent to the transport. *)
Theorem collaborator_errors_are_returned (env : collaborators) (w : world)
    (pre : string) (err : error) :
  let c := common (this w) in
  let r := buildSingularityInfo env w in
  Primary c <> "" ->
  classPrefix (Primary c) = Some pre ->
  (forall repoName,
     repositoryOf env c = (repoName, Some err) ->
     r = (Fail err, asked (scannedWorld w) [repositoryQuery c])) /\
  (forall repoName repoURL,
     repositoryOf env c = (repoName, None) -> repoName <> "" ->
     repositoryURLFromName env (deploymentID c) repoName = (repoURL, Some err) ->
     r = (Fail err, asked (scannedWorld w)
                      [repositoryQuery c; urlQuery c repoName])) /\
  (forall repoName repoURL u,
     repositoryOf env c = (repoName, None) -> repoName <> "" ->
     repositoryURLFromName env (deploymentID c) repoName = (repoURL, None) ->
     repoURL <> "" -> repoURL <> DockerHubURL env ->
     repoURL <> SingularityHubURL env ->
     url_Parse env repoURL = (u, Some err) ->
     r = (Fail err, asked (scannedWorld w)
                      [repositoryQuery c; urlQuery c repoName])) /\
  transportCalls (trace (snd r)) = transportCalls (trace w).
Proof.
  intros c r Himg Hclass. subst r.
  pose proof (buildSingularityInfo_prefixed env w Himg Hclass) as H.
  fold c in H.
  change (common (this (scannedWorld w))) with c in H.
  split; [|split; [|split]].
  - intros n Hrepo.
    remember (buildSingularityInfo env w) as r eqn:Er. clear Er.
    destruct H; change (common (this (scannedWorld w))) with c in *; congruence.
  - intros n url Hrepo Hn Hurl.
    remember (buildSingularityInfo env w) as r eqn:Er. clear Er.
    destruct H; change (common (this (scannedWorld w))) with c in *;
      same_answers n url.
  - intros n url u Hrepo Hn Hurl H0 H1 H2 Hparse.
    remember (buildSingularityInfo env w) as r eqn:Er. clear Er.
    destruct H; change (common (this (scannedWorld w))) with c in *;
      same_answers n url.
  - apply (f_equal (@List.length string)).
    apply buildSingularityInfo_commands.
Qed.

Lemma collaborator_errors_are_returned_witness :
  let w := Sample.request runnableRun "docker://team/tool" []
             (Sample.job true [] []) in
  let down := Scenario.env ("", Some Scenario.storeDown) ("", None)
                Sample.accepted None None in
  let malformed := Scenario.env ("myrepo", None) ("://reg.example.com", None)
                     Sample.accepted None None in
  buildSingularityInfo down w =
    (Fail Scenario.storeDown,
     asked (scannedWorld w) [repositoryQuery (common (this w))]) /\
  buildSingularityInfo malformed w =
    (Fail Scenario.badURL,
     asked (scannedWorld w)
       [repositoryQuery (common (this w)); urlQuery (common (this w)) "myrepo"]).
Proof.
  intros w down malformed. split.
  - apply (proj1 (@collaborator_errors_are_returned down w "docker://"
                    Scenario.storeDown ltac:(discriminate) eq_refl) "").
    reflexivity.
  - apply (proj1 (proj2 (proj2 (@collaborator_errors_are_returned malformed w
                    "docker://" Scenario.badURL ltac:(discriminate) eq_refl)))
             "myrepo" "://reg.example.com"
             {| Scheme := ""; Host := ""; Path := "" |});
      try reflexivity; discriminate.
Defined.

(** ** Dispatch as a whole *)

Lemma buildSingularityInfo_no_panic (env : collaborators) (w : world) :
  forall reason, fst (buildSingularityInfo env w) <> Panic reason.
Proof.
  intros reason.
  destruct (string_dec (Primary (common (this w))) "") as [He|Hne].
  { now rewrite (buildSingularityInfo_missing env w He). }
  destruct (classPrefix (Primary (common (this w)))) as [pre|] eqn:Hclass.
  - pose proof (buildSingularityInfo_prefixed env w Hne Hclass) as H.
    remember (buildSingularityInfo env w) as r eqn:Er. clear Er.
    destruct H; discriminate.
  - rewrite (buildSingularityInfo_unprefixed env w Hne Hclass).
    destruct (_ || _); discriminate.
Qed.





(** X5. A dispatch that fails names what failed: its error is the
    unsupported-operation error, for a name other than the supported one, or
    it is the error of the stage that failed ([buildJobInfo],
    [buildSingularityInfo] or [runJobCommand], the earlier stages having
    succeeded) wrapped with the message of that stage. *)
Theorem dispatch_errors_name_their_stage (env : collaborators) (w : world)
    (err : error) :
  let c := common (this w) in
  let c1 := fst (buildJobInfo env c) in
  let w1 := {| this := set_common (this w) c1; trace := trace w |} in
  let w2 := snd (buildSingularityInfo env w1) in
  fst (executeAsync env w) = Fail err ->
  (strings.ToLower (unicodeLower env) (Name (operation c)) <> runnableRun /\
   err = unsupportedOperation (Name (operation c))) \/
  (strings.ToLower (unicodeLower env) (Name (operation c)) = runnableRun /\
   ((exists cause,
       snd (buildJobInfo env c) = Some cause /\
       err = errors_Wrap cause "failed to build job information") \/
    (exists cause,
       snd (buildJobInfo env c) = None /\
       fst (buildSingularityInfo env w1) = Fail cause /\
       err = errors_Wrap cause "failed to build singularity information") \/
    (exists cause,
       snd (buildJobInfo env c) = None /\
       fst (buildSingularityInfo env w1) = Ret tt /\
       fst (runJobCommand env w2) = Fail cause /\
       err = errors_Wrap cause "failed to run command"))).
Proof.
  intros c c1 w1 w2.
  destruct (string_dec (strings.ToLower (unicodeLower env) (Name (operation c)))
              runnableRun) as [Hop|Hop].
  2: { rewrite (executeAsync_other env w Hop). intros [= <-]. now left. }
  intros Hf. right. split; [exact Hop|].
  destruct (buildJobInfo env c) as [c1' [cause|]] eqn:Hjob; cbn [fst snd] in *.
  { rewrite (executeAsync_runnable _ _ Hop), bind_eq,
      (buildJobInfo_stage_fails _ _ _ Hjob) in Hf.
    injection Hf as <-. left. now exists cause. }
  subst c1. right.
  destruct (fst (buildSingularityInfo env w1)) as [[]|cause|r] eqn:Hok.
  - right. rewrite (executeAsync_submits env w Hop Hjob Hok) in Hf.
    fold w1 in Hf. fold w2 in Hf.
    destruct (runJobCommand env w2) as [[[]|cause|r] w3]; cbn [fst] in *;
      try discriminate.
    injection Hf as <-. now exists cause.
  - left. rewrite (executeAsync_container env w Hop Hjob) in Hf. fold w1 in Hf.
    destruct (buildSingularityInfo env w1) as [o w2'].
    cbn [fst] in *. subst o. injection Hf as <-. now exists cause.
  - now elim (buildSingularityInfo_no_panic env w1 Hok).
Qed.

Lemma dispatch_errors_name_their_stage_witness :
  let env := Scenario.env ("", None) ("", None) Sample.accepted
               (Some (errors_New "no such node")) None in
  let w := Sample.request runnableRun "docker://team/tool" []
             (Sample.job true [] []) in
  exists cause,
    snd (buildJobInfo env (common (this w))) = Some cause /\
    errors_Wrap (errors_New "no such node") "failed to build job information" =
    errors_Wrap cause "failed to build job information".
Proof.
  intros env w.
  destruct (@dispatch_errors_name_their_stage env w
              (errors_Wrap (errors_New "no such node")
                 "failed to build job information") eq_refl)
    as [(H & _) | (_ & [H | [(x & H & _) | (x & H & _)]])].
  - now elim H.
  - exact H.
  - discriminate H.
  - discriminate H.
Defined.


(** ** The end of the run-command stage *)

(** X7. In a batch dispatch that reaches the submission and whose command
    the transport accepts, whatever the parser of the acknowledgment: the
    parser receives the output stripped of its leading and trailing newlines
    only; the identifier it returns is stored as the job identifier, also
    when it reports an error; the dispatch fails with that error, wrapped by
    the stage, or else returns the monitoring action built from the final
    execution together with the polling interval left by [buildJobInfo].
    The final execution is the one [buildJobInfo] left, with the execution
    directory set to the base directory, the outputs read from the options
    and that identifier. *)
Theorem batch_dispatch_result (env : collaborators) (w : world)
    (c1 : executionCommon) (out : string) :
  let w1 := {| this := set_common (this w) c1; trace := trace w |} in
  let r := executeAsync env w in
  let parsed := parseJobIDFromBatchOutput env (strings.Trim out newline) in
  let final :=
    set_jobInfo (readied c1 (parseOutputConfigFromOpts env (opts (e_jobInfo c1))))
      (set_ID (set_outputs (e_jobInfo c1)
                 (parseOutputConfigFromOpts env (opts (e_jobInfo c1))))
         (fst parsed)) in
  strings.ToLower (unicodeLower env) (Name (operation (common (this w)))) = runnableRun ->
  buildJobInfo env (common (this w)) = (c1, None) ->
  fst (buildSingularityInfo env w1) = Ret tt ->
  batchMode (e_jobInfo c1) = true ->
  (forall cmd, client_RunCommand env cmd = (out, None)) ->
  common (this (snd r)) = final /\
  fst r =
    match snd parsed with
    | None => Ret (buildJobMonitoringAction env final,
                   monitoringTimeInterval (e_jobInfo c1))
    | Some err => Fail (errors_Wrap err "failed to run command")
    end.
Proof.
  intros w1 r parsed final Hop Hjob Hok Hbatch Hreply. subst r.
  rewrite (executeAsync_submits env w Hop Hjob Hok). fold w1.
  destruct (buildSingularityInfo_ok env w1 Hok) as (Hc & (s & Hs) & _).
  cbn zeta in Hc, Hs. change (common (this w1)) with c1 in Hc.
  set (w2 := snd (buildSingularityInfo env w1)) in *.
  assert (Hb2 : batchMode (e_jobInfo (common (this w2))) = true)
    by (rewrite Hc; exact Hbatch).
  rewrite (runJobCommand_batch env w2 Hb2).
  assert (Hs' : e_singularityInfo (this (batchReady env w2)) = Some s) by exact Hs.
  rewrite (runBatchMode_eq env _ _ Hs'). cbn zeta. rewrite Hreply.
  fold parsed.
  assert (Hfinal :
    common (this (withJobInfo
      (afterCommand (batchReady env w2)
         (batchCmd (OperationRemoteBaseDir (common (this (batchReady env w2))))
            (batchInnerCmd
               (rangeExports (inputs (e_jobInfo (common (this (batchReady env w2))))))
               (fillJobCommandOpts env (common (this w2))) s)))
      (set_ID (e_jobInfo (common (this (batchReady env w2)))) (fst parsed))))
    = final).
  { cbn [withJobInfo afterCommand batchReady entered this common set_common
         e_jobInfo set_jobInfo].
    rewrite Hc. reflexivity. }
  destruct (snd parsed) as [err|]; cbn [fst snd].
  - split; [exact Hfinal | reflexivity].
  - rewrite Hfinal. split; [reflexivity|]. reflexivity.
Qed.

Lemma batch_dispatch_result_witness :
  let env := Scenario.env ("", None) ("", None)
               (newline ++ "Submitted batch job 9" ++ newline ++ newline, None)
               None None in
  let w := Sample.request runnableRun "shub://team/tool" []
             (Sample.job true [] []) in
  let r := executeAsync env w in
  fst r = Ret (("dep", "9"), 5%Z) /\
  ID (e_jobInfo (common (this (snd r)))) = "9" /\
  outputs (e_jobInfo (common (this (snd r)))) = ["slurm-%j.out"] /\
  OperationRemoteExecDir (common (this (snd r))) = "/work".
Proof.
  intros env w r.
  destruct (@batch_dispatch_result env w (common (this w))
              (newline ++ "Submitted batch job 9" ++ newline ++ newline))
    as (Hc & Hr); try reflexivity.
  fold r in Hc, Hr. rewrite Hc. split; [exact Hr|]. repeat split.
Defined.

(** X8. When the transport refuses the command of a dispatch that reaches
    the submission, in either mode, the dispatch fails with the transport
    error wrapped with the output and then with the stage message, and
    nothing runs after the call: the job identifier is the one
    [buildJobInfo] left (the acknowledgment parser and [retrieveJobID] are
    not consulted), the execution directory is the base directory and the
    outputs are those the mode stored before the call. *)
Theorem transport_failure_ends_the_stage (env : collaborators) (w : world)
    (c1 : executionCommon) (out : string) (err : error) :
  let w1 := {| this := set_common (this w) c1; trace := trace w |} in
  let r := executeAsync env w in
  strings.ToLower (unicodeLower env) (Name (operation (common (this w)))) = runnableRun ->
  buildJobInfo env (common (this w)) = (c1, None) ->
  fst (buildSingularityInfo env w1) = Ret tt ->
  (forall cmd, client_RunCommand env cmd = (out, Some err)) ->
  fst r = Fail (errors_Wrap (errors_Wrap err out) "failed to run command") /\
  common (this (snd r)) = readied c1 (expectedOutputs env c1) /\
  ID (e_jobInfo (common (this (snd r)))) = ID (e_jobInfo c1).
Proof.
  intros w1 r Hop Hjob Hok Hreply. subst r.
  rewrite (executeAsync_submits env w Hop Hjob Hok). fold w1.
  destruct (buildSingularityInfo_ok env w1 Hok) as (Hc & (s & Hs) & _).
  cbn zeta in Hc, Hs. change (common (this w1)) with c1 in Hc.
  set (w2 := snd (buildSingularityInfo env w1)) in *.
  unfold expectedOutputs.
  destruct (batchMode (e_jobInfo c1)) eqn:Hmode.
  - assert (Hb2 : batchMode (e_jobInfo (common (this w2))) = true)
      by (rewrite Hc; exact Hmode).
    rewrite (runJobCommand_batch env w2 Hb2).
    assert (Hs' : e_singularityInfo (this (batchReady env w2)) = Some s) by exact Hs.
    rewrite (runBatchMode_eq env _ _ Hs'). cbn zeta. rewrite Hreply.
    cbn [fst snd afterCommand batchReady withJobInfo entered this common
         set_common]. rewrite Hc. repeat split.
  - assert (Hb2 : batchMode (e_jobInfo (common (this w2))) = false)
      by (rewrite Hc; exact Hmode).
    rewrite (runJobCommand_interactive env w2 Hb2), bind_eq.
    assert (Hs' : e_singularityInfo (this (entered w2)) = Some s) by exact Hs.
    rewrite (runInteractiveMode_eq env _ _ Hs'). cbn zeta. rewrite Hreply.
    cbn [fst snd afterCommand withJobInfo entered this common set_common].
    rewrite Hc. repeat split.
Qed.

Lemma transport_failure_ends_the_stage_witness :
  let env := Scenario.env ("", None) ("", None) Sample.refused None None in
  let w := Sample.request runnableRun "tool.simg" []
             {| ID := "41"; batchMode := true; monitoringTimeInterval := 5%Z;
                inputs := []; outputs := ["old.out"]; execArgs := [];
                opts := [] |} in
  let r := executeAsync env w in
  fst r = Fail (errors_Wrap
                  (errors_Wrap (errors_New "exit status 1")
                     "sbatch: error: invalid partition")
                  "failed to run command") /\
  common (this (snd r)) = readied (common (this w)) ["slurm-%j.out"] /\
  ID (e_jobInfo (common (this (snd r)))) = "41".
Proof.
  intros env w r.
  apply (@transport_failure_ends_the_stage env w (common (this w))
           "sbatch: error: invalid partition" (errors_New "exit status 1"));
    reflexivity.
Defined.

Lemma onCommon_eq (f : executionCommon -> executionCommon * option error)
    (w : world) :
  onCommon f w =
  (match snd (f (common (this w))) with
   | None => Ret tt
   | Some err => Fail err
   end,
   {| this := set_common (this w) (fst (f (common (this w)))); trace := trace w |}).
Proof.
  unfold onCommon. run. destruct (f (common (this w))) as [c [err|]]; reflexivity.
Qed.

(** ** The dispatch with the commands of the collaborators *)

Lemma commandsRun_sent (cmds : list string) :
  commandsRun (map RunCommand cmds) = cmds.
Proof.
  unfold commandsRun.
  induction cmds as [|cmd cmds IH]; cbn [map flat_map app];
    [reflexivity | now f_equal].
Qed.

Lemma onCommonVia_eq (sent : executionCommon -> list string)
    (f : executionCommon -> executionCommon * option error) (w : world) :
  onCommonVia sent f w =
  (match snd (f (common (this w))) with
   | None => Ret tt
   | Some err => Fail err
   end,
   {| this := set_common (this w) (fst (f (common (this w))));
      trace := trace w ++ map RunCommand (sent (common (this w))) |}).
Proof.
  unfold onCommonVia. rewrite bind_eq. unfold getThis at 1.
  rewrite bind_eq. unfold sendAll at 1. now rewrite onCommon_eq.
Qed.

Lemma executeAsyncVia_other (env : collaborators) (use : clientUse) (w : world) :
  strings.ToLower (unicodeLower env) (Name (operation (common (this w)))) <> runnableRun ->
  executeAsyncVia env use w =
  (Fail (unsupportedOperation (Name (operation (common (this w))))), w).
Proof.
  intros H. unfold executeAsyncVia. run.
  apply String.eqb_neq in H. now rewrite H.
Qed.

(** The stages of an accepted dispatch, one after the other. *)
Lemma executeAsyncVia_stages (env : collaborators) (use : clientUse) (w : world) :
  strings.ToLower (unicodeLower env) (Name (operation (common (this w)))) = runnableRun ->
  executeAsyncVia env use w =
  match snd (buildJobInfo env (common (this w))) with
  | Some err =>
      (Fail (errors_Wrap err "failed to build job information"),
       jobInfoBuilt env use w)
  | None =>
      match buildSingularityInfo env (jobInfoBuilt env use w) with
      | (Ret _, w2) =>
          match runJobCommandVia env use w2 with
          | (Ret _, w3) =>
              (Ret (buildJobMonitoringAction env (common (this w3)),
                    monitoringTimeInterval (e_jobInfo (common (this w3)))), w3)
          | (Fail err, w3) => (Fail (errors_Wrap err "failed to run command"), w3)
          | (Panic reason, w3) => (Panic reason, w3)
          end
      | (Fail err, w2) =>
          (Fail (errors_Wrap err "failed to build singularity information"), w2)
      | (Panic reason, w2) => (Panic reason, w2)
      end
  end.
Proof.
  intros Hop. unfold executeAsyncVia.
  rewrite bind_eq. unfold getThis at 1.
  apply String.eqb_eq in Hop. rewrite Hop.
  rewrite bind_eq. unfold wrapped at 1. rewrite onCommonVia_eq.
  fold (jobInfoBuilt env use w).
  destruct (snd (buildJobInfo env (common (this w)))) as [err|]; [reflexivity|].
  rewrite bind_eq. unfold wrapped at 1.
  destruct (buildSingularityInfo env (jobInfoBuilt env use w))
    as [[[]|err|reason] w2]; try reflexivity.
  rewrite bind_eq. unfold wrapped at 1.
  destruct (runJobCommandVia env use w2) as [[[]|err|reason] w3]; reflexivity.
Qed.

Lemma runJobCommandVia_eq (env : collaborators) (use : clientUse) (w : world) :
  runJobCommandVia env use w =
  if batchMode (e_jobInfo (common (this w))) then
    runBatchMode env (fillJobCommandOpts env (common (this w))) (batchReady env w)
  else
    match runInteractiveMode env (fillJobCommandOpts env (common (this w)))
            (entered w) with
    | (Ret _, w') =>
        onCommonVia (retrieveJobID_commands use) (retrieveJobID env) w'
    | (Fail err, w') => (Fail err, w')
    | (Panic reason, w') => (Panic reason, w')
    end.
Proof.
  unfold runJobCommandVia. rewrite bind_eq. unfold getThis at 1.
  rewrite bind_eq. unfold setThis at 1. rewrite bind_eq. unfold getThis at 1.
  cbn [this common set_common e_jobInfo set_OperationRemoteExecDir].
  destruct (batchMode (e_jobInfo (common (this w)))).
  - rewrite bind_eq. reflexivity.
  - rewrite bind_eq. fold (entered w).
    destruct (runInteractiveMode env _ (entered w)) as [[[]|err|reason] w'];
      reflexivity.
Qed.





(** The dispatch with quiet collaborators is the dispatch of the first
    part. *)
Lemma onCommonVia_quiet (f : executionCommon -> executionCommon * option error)
    (w : world) :
  onCommonVia (fun _ => []) f w = onCommon f w.
Proof.
  rewrite onCommonVia_eq, onCommon_eq. cbn [map]. now rewrite app_nil_r.
Qed.

Lemma runJobCommandVia_quiet (env : collaborators) (w : world) :
  runJobCommandVia env quietUse w = runJobCommand env w.
Proof.
  rewrite runJobCommandVia_eq.
  destruct (batchMode (e_jobInfo (common (this w)))) eqn:Hb.
  - now rewrite (runJobCommand_batch env w Hb).
  - rewrite (runJobCommand_interactive env w Hb), bind_eq.
    destruct (runInteractiveMode env _ (entered w)) as [[[]|err|reason] w'];
      try reflexivity.
    apply onCommonVia_quiet.
Qed.

Lemma executeAsyncVia_quiet (env : collaborators) (w : world) :
  executeAsyncVia env quietUse w = executeAsync env w.
Proof.
  destruct (string_dec (strings.ToLower (unicodeLower env)
                          (Name (operation (common (this w))))) runnableRun)
    as [Hop|Hop].
  2: { now rewrite (executeAsyncVia_other env quietUse w Hop),
         (executeAsync_other env w Hop). }
  rewrite (executeAsyncVia_stages env quietUse w Hop).
  assert (Hw : jobInfoBuilt env quietUse w =
               {| this := set_common (this w) (fst (buildJobInfo env (common (this w))));
                  trace := trace w |}).
  { unfold jobInfoBuilt. cbn [quietUse buildJobInfo_commands map].
    now rewrite app_nil_r. }
  rewrite Hw.
  destruct (buildJobInfo env (common (this w))) as [c1 [err|]] eqn:Hjob;
    cbn [fst snd].
  { now rewrite (executeAsync_runnable _ _ Hop), bind_eq,
      (buildJobInfo_stage_fails _ _ _ Hjob). }
  rewrite (executeAsync_container env w Hop Hjob).
  destruct (buildSingularityInfo env _) as [[[]|err|reason] w2]; try reflexivity.
  rewrite bind_eq. unfold wrapped at 1. rewrite runJobCommandVia_quiet.
  destruct (runJobCommand env w2) as [[[]|err|reason] w3]; reflexivity.
Qed.

(** X9. In an interactive dispatch that reaches the submission and whose
    command the transport accepts, the output of the transport is not used
    and [retrieveJobID] decides the end: it runs on the execution with the
    execution directory set and the redirect file as only output; the
    dispatch fails with its error, wrapped by the stage, or returns the
    monitoring action and polling interval of the execution it hands back.
    The commands of the dispatch are, in order, those of [buildJobInfo],
    the one command of [runInteractiveMode], and those of
    [retrieveJobID]. *)
Theorem interactive_dispatch_ends_with_retrieveJobID (env : collaborators)
    (use : clientUse) (w : world) (c1 : executionCommon) (out : string) :
  let r := executeAsyncVia env use w in
  let c2 := readied c1 [UniqueTimestampedName env "yorc_" ""] in
  let retrieved := retrieveJobID env c2 in
  strings.ToLower (unicodeLower env) (Name (operation (common (this w)))) = runnableRun ->
  buildJobInfo env (common (this w)) = (c1, None) ->
  fst (buildSingularityInfo env (jobInfoBuilt env use w)) = Ret tt ->
  batchMode (e_jobInfo c1) = false ->
  (forall cmd, client_RunCommand env cmd = (out, None)) ->
  common (this (snd r)) = fst retrieved /\
  fst r =
    match snd retrieved with
    | None => Ret (buildJobMonitoringAction env (fst retrieved),
                   monitoringTimeInterval (e_jobInfo (fst retrieved)))
    | Some err => Fail (errors_Wrap err "failed to run command")
    end /\
  exists cmd,
    commandsRun (trace (snd r)) =
      (commandsRun (trace w) ++ buildJobInfo_commands use (common (this w)) ++
       cmd :: retrieveJobID_commands use c2)%list.
Proof.
  intros r c2 retrieved Hop Hjob Hok Hmode Hreply. subst r.
  rewrite (executeAsyncVia_stages env use w Hop).
  destruct (buildSingularityInfo_ok env (jobInfoBuilt env use w) Hok)
    as (Hc & (s & Hs) & Ht).
  cbn zeta in Hc, Hs, Ht.
  assert (Hc1 : common (this (jobInfoBuilt env use w)) = c1).
  { unfold jobInfoBuilt. cbn [this common set_common]. now rewrite Hjob. }
  rewrite Hc1 in Hc.
  assert (Htb : commandsRun (trace (jobInfoBuilt env use w)) =
                (commandsRun (trace w) ++
                 buildJobInfo_commands use (common (this w)))%list).
  { unfold jobInfoBuilt. cbn [trace].
    now rewrite commandsRun_app, commandsRun_sent. }
  rewrite Htb in Ht.
  rewrite Hjob. cbn [snd].
  destruct (buildSingularityInfo env (jobInfoBuilt env use w)) as [o w2].
  cbn [fst snd] in *. subst o.
  rewrite runJobCommandVia_eq, Hc, Hmode.
  assert (Hs' : e_singularityInfo (this (entered w2)) = Some s) by exact Hs.
  rewrite (runInteractiveMode_eq env _ _ Hs'). cbn zeta. rewrite Hreply.
  rewrite onCommonVia_eq.
  match goal with |- context [retrieveJobID env ?c] =>
    assert (Hcommon : c = c2)
      by (cbn [afterCommand withJobInfo entered this common set_common];
          rewrite Hc; reflexivity);
    rewrite !Hcommon
  end.
  fold retrieved.
  assert (Hcmds : forall cmd,
            commandsRun ((trace w2 ++ [RunCommand cmd]) ++
                         map RunCommand (retrieveJobID_commands use c2)) =
            (commandsRun (trace w) ++ buildJobInfo_commands use (common (this w)) ++
             cmd :: retrieveJobID_commands use c2)%list).
  { intros cmd. rewrite !commandsRun_app, commandsRun_sent, Ht.
    cbn [commandsRun flat_map app]. now rewrite <- !app_assoc. }
  destruct retrieved as [c3 [err|]];
    cbn [fst snd set_common common this trace afterCommand withJobInfo entered];
    (split; [reflexivity|]); (split; [reflexivity|]);
    eexists; apply Hcmds.
Qed.

Lemma interactive_dispatch_ends_with_retrieveJobID_witness :
  let w := Sample.request runnableRun "tool.img" [] (Sample.job false [] []) in
  let found := Scenario.env ("", None) ("", None) ("", None) None None in
  let lost := Scenario.env ("", None) ("", None) ("", None) None
                (Some (errors_New "no job found")) in
  (fst (executeAsyncVia found squeueUse w) = Ret (("dep", "77"), 5%Z) /\
   exists cmd,
     commandsRun (trace (snd (executeAsyncVia found squeueUse w))) =
     [cmd; "squeue --noheader --name=job -o %A"]) /\
  fst (executeAsyncVia lost quietUse w) =
    Fail (errors_Wrap (errors_New "no job found") "failed to run command").
Proof.
  intros w found lost. split.
  - destruct (@interactive_dispatch_ends_with_retrieveJobID found squeueUse w
                (common (this w)) "" eq_refl eq_refl eq_refl eq_refl
                (fun _ => eq_refl)) as (_ & H & Hn).
    split; [exact H | exact Hn].
  - destruct (@interactive_dispatch_ends_with_retrieveJobID lost quietUse w
                (common (this w)) "" eq_refl eq_refl eq_refl eq_refl
                (fun _ => eq_refl)) as (_ & H & _).
    exact H.
Defined.

(** * Properties of the Elasticsearch helpers *)

(** X10. Given a response that has a body, [handleESResponseError]
    returns, and it returns no error exactly when the request raised none
    and the status of the response is at most 299: a request error is always
    reported, also with a correct status, and a status above 299 is always
    reported, also when the body of the response cannot be decoded. *)
Theorem handleESResponseError_reports_every_failure (es : elastic.services)
    (res : elastic.Response) (requestDescription query : string)
    (requestError : option (elastic.goError es)) :
  exists err,
    elastic.handleESResponseError es (Some res) requestDescription query requestError
      = elastic.Val err /\
    (err = None <-> requestError = None /\ (elastic.StatusCode res <= 299)%Z).
Proof.
  unfold elastic.handleESResponseError, elastic.IsError.
  destruct requestError as [e|].
  - eexists. split; [reflexivity|]. split; [discriminate | now intros [? _]].
  - destruct (Z.ltb_spec 299 (elastic.StatusCode res)) as [Hlt|Hle].
    + destruct (elastic.json_Decode es (elastic.Body res)) as [m [e|]];
        eexists; (split; [reflexivity|]); split;
        try discriminate; intros [_ H]; lia.
    + eexists. split; [reflexivity|]. now split.
Qed.

Lemma rangeHits_kept (es : elastic.services)
    (hits : list (elastic.jsonValue es)) :
  forall (start : N) (values : list (elastic.keyValue es)) lastIndex values',
    elastic.rangeHits es hits (start, values) = elastic.Val (lastIndex, values') ->
    values' = (values ++ flat_map (elastic.keptOf es) hits)%list /\
    lastIndex = elastic.lastIndexOf es start (flat_map (elastic.keptOf es) hits).
Proof.
  induction hits as [|hit hits IH]; intros start values lastIndex values' H.
  - cbn in H. injection H as <- <-. now rewrite app_nil_r.
  - cbn [elastic.rangeHits] in H.
    assert (Hhit : exists state,
              elastic.decodeHit es (start, values) hit = elastic.Val state /\
              snd state = (values ++ elastic.keptOf es hit)%list /\
              fst state = elastic.lastIndexOf es start (elastic.keptOf es hit)).
    { unfold elastic.decodeHit, elastic.keptOf in *.
      destruct hit as [| | | |l|h]; try discriminate H.
      cbn [elastic.assertMap elastic.andThen] in *.
      destruct (elastic.index h "_id") as [| | |id| |]; try discriminate H.
      cbn [elastic.assertString elastic.andThen] in *.
      destruct (elastic.index h "_source") as [| | | | |source];
        try discriminate H.
      cbn [elastic.assertMap elastic.andThen] in *.
      destruct (elastic.index source "iid") as [| | |iid| |]; try discriminate H.
      cbn [elastic.assertString elastic.andThen] in *.
      destruct (elastic.parseInt64StringToUint64 es iid) as [n [e|]].
      - eexists. split; [reflexivity|]. cbn. now rewrite app_nil_r.
      - destruct (elastic.json_Marshal es source) as [raw [e|]].
        + eexists. split; [reflexivity|]. cbn. now rewrite app_nil_r.
        + eexists. split; [reflexivity|]. now cbn. }
    destruct Hhit as ([start1 values1] & Hd & Hv & Hl). cbn [fst snd] in Hv, Hl.
    rewrite Hd in H. cbn [elastic.andThen] in H.
    destruct (IH _ _ _ _ H) as (-> & ->). subst values1 start1.
    cbn [flat_map]. rewrite <- app_assoc. split; [reflexivity|].
    unfold elastic.lastIndexOf. rewrite rev_app_distr.
    destruct (rev (flat_map (elastic.keptOf es) hits)); reflexivity.
Qed.

Lemma decodeEsQueryResponse_kept (es : elastic.services)
    (r : list (string * elastic.jsonValue es))
    (values values' : list (elastic.keyValue es)) (lastIndex : N) :
  elastic.decodeEsQueryResponse es r values = elastic.Val (lastIndex, values') ->
  exists hits,
    elastic.hitsOf es r = Some hits /\
    values' = (values ++ flat_map (elastic.keptOf es) hits)%list /\
    lastIndex = elastic.lastIndexOf es 0%N (flat_map (elastic.keptOf es) hits).
Proof.
  unfold elastic.decodeEsQueryResponse, elastic.hitsOf.
  destruct (elastic.index r "hits") as [| | | | |outer]; try discriminate.
  cbn [elastic.assertMap elastic.andThen].
  destruct (elastic.index outer "hits") as [| | | |hits|]; try discriminate.
  cbn [elastic.assertSlice elastic.andThen].
  intros H. exists hits. split; [reflexivity|].
  exact (@rangeHits_kept es hits _ _ _ _ H).
Qed.

(** X11. When [decodeEsQueryResponse] returns, the values are those it was
    given followed, in the order of the hits, by one value for each hit whose
    [iid] parses and whose source can be marshalled, the others being
    skipped; the last index is the index of the last value added, and zero
    when none was added. *)
Theorem decodeEsQueryResponse_keeps_parsable_hits (es : elastic.services)
    (r : list (string * elastic.jsonValue es))
    (values values' : list (elastic.keyValue es)) (lastIndex : N) :
  elastic.decodeEsQueryResponse es r values = elastic.Val (lastIndex, values') ->
  exists hits,
    elastic.hitsOf es r = Some hits /\
    values' = (values ++ flat_map (elastic.keptOf es) hits)%list /\
    lastIndex = elastic.lastIndexOf es 0%N (flat_map (elastic.keptOf es) hits).
Proof.
  intros H. destruct (@decodeEsQueryResponse_kept _ _ _ _ _ H) as (hits & Hh).
  now exists hits.
Qed.

Lemma decodeEsQueryResponse_keeps_parsable_hits_witness :
  let es := ElasticSample.es (ElasticSample.answer 200 "page") in
  let kept (id : string) (iid : N) : elastic.keyValue es :=
    {| elastic.Key := id; elastic.LastModifyIndex := iid;
       elastic.Value := [("iid", elastic.Str
                            (if N.eqb iid 7 then "7" else "9"));
                         ("type", elastic.Str "log")];
       elastic.RawValue := "{}" |} in
  exists hits,
    elastic.hitsOf es ElasticSample.page = Some hits /\
    [kept "z" 7%N; kept "a" 7%N; kept "c" 9%N] =
      ([kept "z" 7%N] ++ flat_map (elastic.keptOf es) hits)%list /\
    9%N = elastic.lastIndexOf es 0%N (flat_map (elastic.keptOf es) hits).
Proof.
  intros es kept.
  apply (@decodeEsQueryResponse_keeps_parsable_hits es ElasticSample.page
           [kept "z" 7%N]).
  reflexivity.
Defined.

Lemma handleESResponseError_no_request_error (es : elastic.services)
    (res : elastic.Response) (requestDescription query : string) :
  exists err,
    elastic.handleESResponseError es (Some res) requestDescription query None
      = elastic.Val err /\
    (err = None <-> elastic.IsError res = false).
Proof.
  unfold elastic.handleESResponseError.
  destruct (elastic.IsError res).
  - destruct (elastic.json_Decode es (elastic.Body res)) as [m [e|]];
      eexists; (split; [reflexivity|]); split; discriminate.
  - eexists. split; [reflexivity|]. now split.
Qed.

(** X12. [doQueryEs] does not report a failed search request: when the
    client returns an error, the result carries no error, no hit, no value
    and the wait index as last index.  An error that it does report comes
    from a response of status above 299 or from a body that cannot be
    decoded, and comes with zero hits, no value and the wait index as last
    index. *)
Theorem doQueryEs_errors (es : elastic.services) (index query : string)
    (waitIndex : N) (size : Z) (order : string) :
  let r := elastic.doQueryEs es index query waitIndex size order in
  (forall res e,
     elastic.search es index size query ("iid:" ++ order) = (res, Some e) ->
     r = elastic.Val (0%Z, [], waitIndex, None)) /\
  (forall hits values lastIndex err,
     r = elastic.Val (hits, values, lastIndex, Some err) ->
     hits = 0%Z /\ values = [] /\ lastIndex = waitIndex /\
     exists res,
       elastic.search es index size query ("iid:" ++ order) = (Some res, None) /\
       ((299 < elastic.StatusCode res)%Z \/
        exists m e, elastic.json_Decode es (elastic.Body res) = (m, Some e))).
Proof.
  cbn zeta. unfold elastic.doQueryEs. split.
  - intros res e H. rewrite H. destruct res; reflexivity.
  - intros hits values lastIndex err.
    destruct (elastic.search es index size query ("iid:" ++ order))
      as [[res|] [e|]] eqn:Hsearch; try discriminate.
    destruct (handleESResponseError_no_request_error es res
                ("Search:" ++ index) query) as (herr & -> & Hiff).
    cbn [elastic.andThen].
    destruct herr as [e|].
    + intros [= <- <- <- <-]. repeat split. exists res. split; [reflexivity|].
      left. apply Z.ltb_lt. unfold elastic.IsError in Hiff.
      destruct (299 <? elastic.StatusCode res)%Z; [reflexivity|].
      discriminate (proj2 Hiff eq_refl).
    + destruct (elastic.json_Decode es (elastic.Body res)) as [m [e|]] eqn:Hd.
      * intros [= <- <- <- <-]. repeat split. exists res.
        split; [reflexivity|]. right. now exists m, e.
      * destruct (elastic.assertMap (elastic.index m "hits")) as [outer|];
          [|discriminate]. cbn [elastic.andThen].
        destruct (elastic.assertFloat64 (elastic.index outer "total"));
          [|discriminate]. cbn [elastic.andThen].
        destruct (elastic.assertFloat64 (elastic.index m "took"));
          [|discriminate]. cbn [elastic.andThen].
        destruct (elastic.decodeEsQueryResponse es m []); discriminate.
Qed.

Lemma doQueryEs_errors_witness :
  elastic.doQueryEs (ElasticSample.es ElasticSample.refused) "logs" "{}" 12%N 10%Z "asc"
    = elastic.Val (0%Z, [], 12%N, None) /\
  exists res,
    elastic.search (ElasticSample.es (ElasticSample.answer 404 "reason"))
      "logs" 10%Z "{}" ("iid:" ++ "asc") = (Some res, None) /\
    ((299 < elastic.StatusCode res)%Z \/
     exists m e,
       elastic.json_Decode (ElasticSample.es (ElasticSample.answer 404 "reason"))
         (elastic.Body res) = (m, Some e)).
Proof.
  split.
  - apply (proj1 (doQueryEs_errors (ElasticSample.es ElasticSample.refused)
                    "logs" "{}" 12%N 10%Z "asc")
             None (elastic.External "dial tcp: connection refused")).
    reflexivity.
  - eapply (proj2 (doQueryEs_errors
                     (ElasticSample.es (ElasticSample.answer 404 "reason"))
                     "logs" "{}" 12%N 10%Z "asc")).
    reflexivity.
Defined.

(** X13. When [doQueryEs] returns without error on a response of the
    client, the status of the response is at most 299, the number of hits is
    the [total] of the decoded body, the values are those of the hits whose
    [iid] parses and whose source can be marshalled, in order, and the last
    index is the index of the last value, or zero when there is none:
    the wait index is not returned. *)
Theorem doQueryEs_success (es : elastic.services) (index query : string)
    (waitIndex : N) (size : Z) (order : string) (res : elastic.Response)
    (hits : Z) (values : list (elastic.keyValue es)) (lastIndex : N) :
  elastic.search es index size query ("iid:" ++ order) = (Some res, None) ->
  elastic.doQueryEs es index query waitIndex size order
    = elastic.Val (hits, values, lastIndex, None) ->
  let r := fst (elastic.json_Decode es (elastic.Body res)) in
  (elastic.StatusCode res <= 299)%Z /\
  (exists outer total,
     elastic.index r "hits" = elastic.Map outer /\
     elastic.index outer "total" = elastic.Float64 total /\
     hits = elastic.toInt es total) /\
  exists found,
    elastic.hitsOf es r = Some found /\
    values = flat_map (elastic.keptOf es) found /\
    lastIndex = elastic.lastIndexOf es 0%N values.
Proof.
  intros Hsearch. unfold elastic.doQueryEs. rewrite Hsearch.
  destruct (handleESResponseError_no_request_error es res
              ("Search:" ++ index) query) as (herr & -> & Hiff).
  cbn [elastic.andThen].
  destruct herr as [e|]; [discriminate|].
  destruct (elastic.json_Decode es (elastic.Body res)) as [m [e|]] eqn:Hd;
    [discriminate|].
  cbn [fst].
  destruct (elastic.index m "hits") as [| | | | |outer] eqn:Ho; try discriminate.
  cbn [elastic.assertMap elastic.andThen].
  destruct (elastic.index outer "total") as [| |total| | |] eqn:Htot;
    try discriminate.
  cbn [elastic.assertFloat64 elastic.andThen].
  destruct (elastic.assertFloat64 (elastic.index m "took")); [|discriminate].
  cbn [elastic.andThen].
  destruct (elastic.decodeEsQueryResponse es m []) as [[li vs]|] eqn:Hdec;
    [|discriminate].
  cbn [elastic.andThen fst snd]. intros [= <- <- <-].
  destruct (@decodeEsQueryResponse_kept _ _ _ _ _ Hdec) as (found & Hf & Hv & Hl).
  cbn [app] in Hv. split.
  - unfold elastic.IsError in Hiff. apply Z.ltb_ge. now apply Hiff.
  - split; [now exists outer, total|].
    exists found. rewrite Hv at 2. now repeat split.
Qed.

Lemma doQueryEs_success_witness :
  let es := ElasticSample.es (ElasticSample.answer 200 "page") in
  let kept (id iid : string) (n : N) : elastic.keyValue es :=
    {| elastic.Key := id; elastic.LastModifyIndex := n;
       elastic.Value := [("iid", elastic.Str iid); ("type", elastic.Str "log")];
       elastic.RawValue := "{}" |} in
  elastic.doQueryEs es "logs" "{}" 12%N 10%Z "asc"
    = elastic.Val (3%Z, [kept "a" "7" 7%N; kept "c" "9" 9%N], 9%N, None) /\
  (200 <= 299)%Z /\
  (exists outer total,
     elastic.index ElasticSample.page "hits" = elastic.Map outer /\
     elastic.index outer "total" = elastic.Float64 total /\
     3%Z = elastic.toInt es total) /\
  exists found,
    elastic.hitsOf es ElasticSample.page = Some found /\
    List.length found = 3 /\
    [kept "a" "7" 7%N; kept "c" "9" 9%N] = flat_map (elastic.keptOf es) found /\
    9%N = elastic.lastIndexOf es 0%N [kept "a" "7" 7%N; kept "c" "9" 9%N].
Proof.
  intros es kept.
  assert (Hrun : elastic.doQueryEs es "logs" "{}" 12%N 10%Z "asc"
            = elastic.Val (3%Z, [kept "a" "7" 7%N; kept "c" "9" 9%N], 9%N, None))
    by reflexivity.
  split; [exact Hrun|].
  destruct (@doQueryEs_success es "logs" "{}" 12%N 10%Z "asc"
              {| elastic.StatusCode := 200; elastic.Body := "page" |}
              3%Z [kept "a" "7" 7%N; kept "c" "9" 9%N] 9%N eq_refl Hrun)
    as (Hstatus & Htotal & found & Hfound & Hvalues & Hlast).
  split; [exact Hstatus|]. split; [exact Htotal|].
  exists found. split; [exact Hfound|]. split; [|split; [exact Hvalues | exact Hlast]].
  cbv in Hfound. injection Hfound as <-. reflexivity.
Defined.

(** X14. [sendBulkRequest] reports success exactly when the client returns
    a response and no error, the status of the response is at most 299 and
    the decoded body has the boolean [errors] set to false.  When the client
    returns no response, error or not, it panics on the deferred close; when
    the status is at most 299 and [errors] is not a boolean of the decoded
    body, it panics on the type assertion. *)
Theorem sendBulkRequest_outcomes (es : elastic.services) (opeCount : Z)
    (body : string) :
  (elastic.sendBulkRequest es opeCount body = elastic.Val None <->
   exists res,
     elastic.bulk es body = (Some res, None) /\
     (elastic.StatusCode res <= 299)%Z /\
     elastic.index (fst (elastic.json_Decode es (elastic.Body res))) "errors"
       = elastic.Bool false) /\
  (forall e,
     elastic.bulk es body = (None, e) ->
     elastic.sendBulkRequest es opeCount body = elastic.Panicked elastic.nilDereference) /\
  (forall res,
     elastic.bulk es body = (Some res, None) ->
     (elastic.StatusCode res <= 299)%Z ->
     (forall b, elastic.index (fst (elastic.json_Decode es (elastic.Body res)))
                  "errors" <> elastic.Bool b) ->
     elastic.sendBulkRequest es opeCount body = elastic.Panicked elastic.badConversion).
Proof.
  unfold elastic.sendBulkRequest. repeat apply conj.
  - destruct (elastic.bulk es body) as [[res|] [e|]]; try discriminate.
    destruct (handleESResponseError_no_request_error es res "BulkRequest" body)
      as (herr & Hh & Hiff).
    unfold elastic.IsError in *.
    destruct (Z.ltb_spec 299 (elastic.StatusCode res)) as [Hlt|Hle].
    + rewrite Hh. intros [= ->]. discriminate (proj1 Hiff eq_refl).
    + destruct (elastic.json_Decode es (elastic.Body res)) as [rsp e] eqn:Hd.
      cbn [fst].
      destruct (elastic.index rsp "errors") as [|[|]| | | |] eqn:He;
        try discriminate.
      intros _. exists res. split; [reflexivity|]. split; [exact Hle | now rewrite Hd].
  - intros (res & Hb & Hle & He). rewrite Hb.
    unfold elastic.IsError.
    destruct (Z.ltb_spec 299 (elastic.StatusCode res)) as [Hlt|_]; [lia|].
    destruct (elastic.json_Decode es (elastic.Body res)) as [rsp e].
    cbn [fst] in He. now rewrite He.
  - intros e H. now rewrite H.
  - intros res Hb Hle Hne. rewrite Hb. unfold elastic.IsError.
    destruct (Z.ltb_spec 299 (elastic.StatusCode res)) as [Hlt|_]; [lia|].
    destruct (elastic.json_Decode es (elastic.Body res)) as [rsp e].
    cbn [fst] in Hne.
    destruct (elastic.index rsp "errors") as [|b| | | |]; try reflexivity.
    now elim (Hne b).
Qed.

Lemma sendBulkRequest_outcomes_witness :
  elastic.sendBulkRequest (ElasticSample.es (ElasticSample.answer 200 "accepted"))
    2%Z "{}" = elastic.Val None /\
  elastic.sendBulkRequest (ElasticSample.es ElasticSample.refused) 2%Z "{}"
    = elastic.Panicked elastic.nilDereference /\
  elastic.sendBulkRequest (ElasticSample.es (ElasticSample.answer 200 "<html>"))
    2%Z "{}" = elastic.Panicked elastic.badConversion.
Proof.
  repeat apply conj.
  - apply (proj1 (sendBulkRequest_outcomes
                    (ElasticSample.es (ElasticSample.answer 200 "accepted"))
                    2%Z "{}")).
    eexists. split; [reflexivity|]. split; [cbn; lia | reflexivity].
  - apply (proj1 (proj2 (sendBulkRequest_outcomes
                    (ElasticSample.es ElasticSample.refused) 2%Z "{}"))
             (Some (elastic.External "dial tcp: connection refused"))).
    reflexivity.
  - apply (proj2 (proj2 (sendBulkRequest_outcomes
                    (ElasticSample.es (ElasticSample.answer 200 "<html>"))
                    2%Z "{}"))
             {| elastic.StatusCode := 200; elastic.Body := "<html>" |}).
    + reflexivity.
    + cbn; lia.
    + intros b. discriminate.
Defined.

(** ** Sample runs of the statements without premises *)


Lemma handleESResponseError_reports_every_failure_witness :
  let es := ElasticSample.es (ElasticSample.answer 503 "<html>") in
  let res := {| elastic.StatusCode := 503; elastic.Body := "<html>" |} in
  exists err,
    elastic.handleESResponseError es (Some res) "BulkRequest" "{}" None
      = elastic.Val err /\
    (err = None <-> None = @None (elastic.goError es) /\ (503 <= 299)%Z).
Proof.
  intros es res.
  exact (@handleESResponseError_reports_every_failure es res "BulkRequest" "{}" None).
Defined.
